(** * ConnectionToCore: the connection lifecycle controller of net/lib

    A shallow embedding of [src/net/lib/ConnectionToCore.ts].  The class's
    fields are a record [Conn]; the action objects it shares between its
    fields and the local variables of its methods live in a heap and are
    named by reference; its [async] methods are programs of a small
    resumption monad [Prog], in which every [await] is a suspension point:
    running a program on a state gives the state at the next suspension
    together with what the program waits for and how it goes on. *)

From Stdlib Require Import ZArith.
From stdpp Require Import base option list gmap strings.

Local Open Scope string_scope.
Local Open Scope list_scope.
Local Open Scope Z_scope.

(** ** Values that cross the connection *)

Module JsError.
(** A JavaScript [Error] object, as far as the controller looks at it:
    its [name], its [message], the [host] a DisconnectedError carries,
    whether it is an instance of CanceledPromiseError, and the dynamic
    [isDisconnecting] property ([None]: the property is absent,
    [Some true]: it is [=== true], [Some false]: any other value). *)
Record t : Type := mk {
  name : string;
  message : string;
  host : option string;
  canceled : bool;
  isDisconnecting : option bool;
}.

#[global] Instance eq_dec : EqDecision t.
Proof. solve_decision. Defined.

(** [delete (error as any).isDisconnecting] *)
Definition deleteIsDisconnecting (e : t) : t :=
  {| name := name e; message := message e; host := host e;
     canceled := canceled e; isDisconnecting := None |}.
End JsError.

Abbreviation Error := JsError.t.

(** Modelled from the spec: the class DisconnectedError of
    [net/errors/DisconnectedError.ts], which is not part of the sources:
    the canonical "remote/transport unavailable" error, which carries the
    host identity of the transport.  The registry-wide cancellation sweeps
    are made with it, so it counts as a cancellation. *)
Definition DisconnectedError (host : string) : Error :=
  {| JsError.name := "DisconnectedError";
     JsError.message :=
       String.append "This Connection has been disconnected (" (String.append host ")");
     JsError.host := Some host;
     JsError.canceled := true;
     JsError.isDisconnecting := None |}.

(** [SessionClosedOrMissingError.name]: the name of the class. *)
Definition SessionClosedOrMissingError_name : string := "SessionClosedOrMissingError".

(** The [data] of a response and the result of a request. *)
Inductive JsValue : Type :=
| JUndefined
| JNull
| JBool (b : bool)
| JNum (z : Z)
| JStr (s : string)
| JErr (e : Error).

#[global] Instance JsValue_eq_dec : EqDecision JsValue.
Proof. solve_decision. Defined.

(** How a promise settled. *)
Inductive Settled : Type :=
| Fulfilled (v : JsValue)
| RejectedWith (e : Error).

#[global] Instance Settled_eq_dec : EqDecision Settled.
Proof. solve_decision. Defined.

(** A JavaScript number that is read as a duration: not-a-number, or a
    count of milliseconds. *)
Inductive JsNumber : Type :=
| NaN
| Num (z : Z).

Definition Number_isNaN (n : JsNumber) : bool :=
  match n with NaN => true | Num _ => false end.

(** ** The pending request registry *)

Abbreviation MsgId := N.

Record PendingEntry : Type := {
  createdAt : Z;
  entryTimeoutMs : option Z;
  bypassesConnectionCheck : bool;
}.

(** Modelled from the spec: the class PendingMessages of
    [net/lib/PendingMessages.ts], which is not part of the sources (spec
    section 4.1).  [entries] are the requests that await settlement,
    [outcomes] records how the future of an id was settled. *)
Record PendingMessages : Type := {
  lastId : MsgId;
  entries : gmap MsgId PendingEntry;
  outcomes : gmap MsgId Settled;
}.

Module Registry.
Definition empty : PendingMessages :=
  {| lastId := 0%N; entries := ∅; outcomes := ∅ |}.

(** [create(timeoutMs?, bypassesConnectionCheck) -> (id, future)] *)
Definition create (now : Z) (timeoutMs : option Z) (bypass : bool)
    (r : PendingMessages) : MsgId * PendingMessages :=
  let id := N.succ (lastId r) in
  (id, {| lastId := id;
          entries := <[id := {| createdAt := now; entryTimeoutMs := timeoutMs;
                                bypassesConnectionCheck := bypass |}]> (entries r);
          outcomes := outcomes r |}).

Definition settle (id : MsgId) (o : Settled) (r : PendingMessages) : PendingMessages :=
  match entries r !! id with
  | Some _ => {| lastId := lastId r;
                 entries := delete id (entries r);
                 outcomes := <[id := o]> (outcomes r) |}
  | None => r
  end.

(** [resolve(id, value)]: no-op if the id is unknown *)
Definition resolve (id : MsgId) (v : JsValue) : PendingMessages -> PendingMessages :=
  settle id (Fulfilled v).

(** [reject(id, error)]: same no-op rule *)
Definition reject (id : MsgId) (e : Error) : PendingMessages -> PendingMessages :=
  settle id (RejectedWith e).

(** [delete(id)]: removes an entry without settling it *)
Definition delete (id : MsgId) (r : PendingMessages) : PendingMessages :=
  {| lastId := lastId r; entries := base.delete id (entries r); outcomes := outcomes r |}.

(** [cancel(error)]: settles every pending entry with [error], then
    clears the registry *)
Definition cancel (e : Error) (r : PendingMessages) : PendingMessages :=
  {| lastId := lastId r;
     entries := ∅;
     outcomes := ((λ _, RejectedWith e) <$> entries r) ∪ outcomes r |}.

Definition isPending (id : MsgId) (r : PendingMessages) : Prop :=
  is_Some (entries r !! id).
End Registry.

(** A request is accounted for in a registry when it is pending there or
    has an outcome. *)
Definition accountedFor (id : MsgId) (r : PendingMessages) : Prop :=
  Registry.isPending id r \/ is_Some (outcomes r !! id).

(** ** Actions and the controller's state *)

(** [IResolvablePromise<void>]: settled at most once. *)
Inductive Resolvable : Type :=
| RPending
| RResolved
| RRejected (e : Error).

#[global] Instance Resolvable_eq_dec : EqDecision Resolvable.
Proof. solve_decision. Defined.

Definition isResolved (r : Resolvable) : bool :=
  match r with RPending => false | _ => true end.

(** [resolvable.resolve()] and [resolvable.reject(err)] *)
Definition Resolvable_resolve (r : Resolvable) : Resolvable :=
  match r with RPending => RResolved | _ => r end.

Definition Resolvable_reject (e : Error) (r : Resolvable) : Resolvable :=
  match r with RPending => RRejected e | _ => r end.

(** [interface IConnectAction].  The optional [isCallingHook] is only
    tested for truth, so absent is [false]; [hookMessageId] is absent,
    [null] or an id of the registry, and only tested for truth. *)
Record IConnectAction : Type := {
  isCallingHook : bool;
  hookMessageId : option MsgId;
  startTime : Z;
  isAutomatic : bool;
  resolvable : Resolvable;
  error : option Error;
}.

Abbreviation ActionRef := nat.

(** The transport the controller was constructed with: its [host], whether
    it has the optional [connect], and what the optional synchronous
    [disconnect] does ([None]: absent, [Some None]: returns,
    [Some (Some e)]: throws [e]). *)
Record ITransport : Type := {
  host : string;
  hasConnect : bool;
  disconnectFn : option (option Error);
}.

(** [this.hooks]: which of the optional hooks are set. *)
Record Hooks : Type := {
  afterConnectFn : bool;
  beforeDisconnectFn : bool;
  afterDisconnectHook : bool;
}.

(** A request as [sendRequest] hands it to [transport.send]. *)
Record RequestPayload : Type := {
  command : string;
  args : JsValue;
  commandId : option Z;
  reqStartTime : option Z;
}.

Record Envelope : Type := {
  envPayload : RequestPayload;
  messageId : MsgId;
  sendTime : Z;
}.

(** A message of the transport: a key is [None] when the payload does not
    have it. *)
Record InboundPayload : Type := {
  responseId : option MsgId;
  data : JsValue;
  listenerId : option string;
  eventType : option string;
}.

(** What the controller did to the outside: the events it emitted, its
    calls of the transport, its log lines. *)
Inductive Emitted : Type :=
| EmitConnected
| EmitDisconnected
| EmitEvent (event : InboundPayload).

Inductive TransportCall : Type :=
| CallConnect (timeoutMs : option Z)
| CallDisconnect
| CallSend (e : Envelope).

Inductive LogLine : Type :=
| LogStats (action : string)
| LogError (action : string) (e : Error).

Record Conn : Type := mkConn {
  transport : ITransport;
  hooks : Hooks;
  MinimumAutoReconnectMillis : JsNumber;
  connectAction : option ActionRef;
  disconnectAction : option ActionRef;
  autoReconnect : bool;
  pendingMessages : PendingMessages;
  didCallConnectionTerminated : bool;
  lastDisconnectDate : option Z;
  heap : list IConnectAction;
  clock : Z;
  emitted : list Emitted;
  transportCalls : list TransportCall;
  logged : list LogLine;
}.

(** [static MinimumAutoReconnectMillis = 1000] *)
Definition MinimumAutoReconnectMillis_default : JsNumber := Num 1000.

(** The controller after its constructor, at time [now]. *)
Definition newConnectionToCore (t : ITransport) (h : Hooks) (now : Z) : Conn :=
  {| transport := t; hooks := h;
     MinimumAutoReconnectMillis := MinimumAutoReconnectMillis_default;
     connectAction := None; disconnectAction := None; autoReconnect := true;
     pendingMessages := Registry.empty;
     didCallConnectionTerminated := false; lastDisconnectDate := None;
     heap := []; clock := now; emitted := []; transportCalls := []; logged := [] |}.


(** Field updates of [Conn] and of an action. *)
Definition set_connectAction (v : option ActionRef) (s : Conn) : Conn :=
  mkConn (transport s) (hooks s) (MinimumAutoReconnectMillis s) v (disconnectAction s)
    (autoReconnect s) (pendingMessages s) (didCallConnectionTerminated s)
    (lastDisconnectDate s) (heap s) (clock s) (emitted s) (transportCalls s) (logged s).

Definition set_disconnectAction (v : option ActionRef) (s : Conn) : Conn :=
  mkConn (transport s) (hooks s) (MinimumAutoReconnectMillis s) (connectAction s) v
    (autoReconnect s) (pendingMessages s) (didCallConnectionTerminated s)
    (lastDisconnectDate s) (heap s) (clock s) (emitted s) (transportCalls s) (logged s).

Definition set_autoReconnect (v : bool) (s : Conn) : Conn :=
  mkConn (transport s) (hooks s) (MinimumAutoReconnectMillis s) (connectAction s)
    (disconnectAction s) v (pendingMessages s) (didCallConnectionTerminated s)
    (lastDisconnectDate s) (heap s) (clock s) (emitted s) (transportCalls s) (logged s).

Definition set_pendingMessages (v : PendingMessages) (s : Conn) : Conn :=
  mkConn (transport s) (hooks s) (MinimumAutoReconnectMillis s) (connectAction s)
    (disconnectAction s) (autoReconnect s) v (didCallConnectionTerminated s)
    (lastDisconnectDate s) (heap s) (clock s) (emitted s) (transportCalls s) (logged s).

Definition set_didCallConnectionTerminated (v : bool) (s : Conn) : Conn :=
  mkConn (transport s) (hooks s) (MinimumAutoReconnectMillis s) (connectAction s)
    (disconnectAction s) (autoReconnect s) (pendingMessages s) v
    (lastDisconnectDate s) (heap s) (clock s) (emitted s) (transportCalls s) (logged s).

Definition set_lastDisconnectDate (v : option Z) (s : Conn) : Conn :=
  mkConn (transport s) (hooks s) (MinimumAutoReconnectMillis s) (connectAction s)
    (disconnectAction s) (autoReconnect s) (pendingMessages s)
    (didCallConnectionTerminated s) v (heap s) (clock s) (emitted s)
    (transportCalls s) (logged s).

Definition set_heap (v : list IConnectAction) (s : Conn) : Conn :=
  mkConn (transport s) (hooks s) (MinimumAutoReconnectMillis s) (connectAction s)
    (disconnectAction s) (autoReconnect s) (pendingMessages s)
    (didCallConnectionTerminated s) (lastDisconnectDate s) v (clock s) (emitted s)
    (transportCalls s) (logged s).

Definition set_clock (v : Z) (s : Conn) : Conn :=
  mkConn (transport s) (hooks s) (MinimumAutoReconnectMillis s) (connectAction s)
    (disconnectAction s) (autoReconnect s) (pendingMessages s)
    (didCallConnectionTerminated s) (lastDisconnectDate s) (heap s) v (emitted s)
    (transportCalls s) (logged s).

Definition set_MinimumAutoReconnectMillis (v : JsNumber) (s : Conn) : Conn :=
  mkConn (transport s) (hooks s) v (connectAction s)
    (disconnectAction s) (autoReconnect s) (pendingMessages s)
    (didCallConnectionTerminated s) (lastDisconnectDate s) (heap s) (clock s)
    (emitted s) (transportCalls s) (logged s).

Definition add_emitted (v : Emitted) (s : Conn) : Conn :=
  mkConn (transport s) (hooks s) (MinimumAutoReconnectMillis s) (connectAction s)
    (disconnectAction s) (autoReconnect s) (pendingMessages s)
    (didCallConnectionTerminated s) (lastDisconnectDate s) (heap s) (clock s)
    (emitted s ++ [v]) (transportCalls s) (logged s).

Definition add_transportCall (v : TransportCall) (s : Conn) : Conn :=
  mkConn (transport s) (hooks s) (MinimumAutoReconnectMillis s) (connectAction s)
    (disconnectAction s) (autoReconnect s) (pendingMessages s)
    (didCallConnectionTerminated s) (lastDisconnectDate s) (heap s) (clock s)
    (emitted s) (transportCalls s ++ [v]) (logged s).

Definition add_logged (v : LogLine) (s : Conn) : Conn :=
  mkConn (transport s) (hooks s) (MinimumAutoReconnectMillis s) (connectAction s)
    (disconnectAction s) (autoReconnect s) (pendingMessages s)
    (didCallConnectionTerminated s) (lastDisconnectDate s) (heap s) (clock s)
    (emitted s) (transportCalls s) (logged s ++ [v]).

Definition set_isCallingHook (v : bool) (a : IConnectAction) : IConnectAction :=
  {| isCallingHook := v; hookMessageId := hookMessageId a; startTime := startTime a;
     isAutomatic := isAutomatic a; resolvable := resolvable a; error := error a |}.

Definition set_hookMessageId (v : option MsgId) (a : IConnectAction) : IConnectAction :=
  {| isCallingHook := isCallingHook a; hookMessageId := v; startTime := startTime a;
     isAutomatic := isAutomatic a; resolvable := resolvable a; error := error a |}.

Definition set_resolvable (v : Resolvable) (a : IConnectAction) : IConnectAction :=
  {| isCallingHook := isCallingHook a; hookMessageId := hookMessageId a;
     startTime := startTime a; isAutomatic := isAutomatic a; resolvable := v;
     error := error a |}.

(** The action object a field or a local variable refers to, and an
    in-place update of it: every holder of the reference sees it. *)
Definition deref (s : Conn) (r : ActionRef) : option IConnectAction := heap s !! r.

Definition mutate (r : ActionRef) (f : IConnectAction -> IConnectAction) (s : Conn) : Conn :=
  set_heap (alter f r (heap s)) s.

(** [ref?.field] read for truth: [this.connectAction?.isCallingHook],
    [this.disconnectAction?.hookMessageId] and the like. *)
Definition truthy {X} (f : IConnectAction -> X) (is_true : X -> bool)
    (s : Conn) (o : option ActionRef) : bool :=
  match o with
  | Some r => match deref s r with Some a => is_true (f a) | None => false end
  | None => false
  end.

Definition callingHook (s : Conn) (o : option ActionRef) : bool :=
  truthy isCallingHook (fun b => b) s o.

Definition automatic (s : Conn) (o : option ActionRef) : bool :=
  truthy isAutomatic (fun b => b) s o.

Definition taggedHookRequest (s : Conn) (o : option ActionRef) : option MsgId :=
  match o with
  | Some r => match deref s r with Some a => hookMessageId a | None => None end
  | None => None
  end.

(** The outcome of the action [a] of a heap, if [a] is allocated. *)
Definition outcomeIn (h : list IConnectAction) (a : ActionRef) : option Resolvable :=
  resolvable <$> h !! a.

Definition resolvableAt (s : Conn) (a : ActionRef) : option Resolvable :=
  outcomeIn (heap s) a.

Definition outcomeOf (s : Conn) (a : ActionRef) : Resolvable :=
  default RPending (resolvableAt s a).

(** ** Asynchronous programs *)

(** What an [await] waits for. *)
Inductive Awaitable : Type :=
| Tick
| TransportConnect (timeoutMs : option Z)
| AfterConnectFn (action : ActionRef)
| BeforeDisconnectFn (action : ActionRef)
| AfterDisconnectHook
| ResolvablePromise (action : ActionRef)
| ResponseAndSend (id : MsgId).

(** A method body: it reads and updates the controller, returns, throws,
    or awaits and goes on with how the awaited promise settled. *)
Inductive Prog (A : Type) : Type :=
| Ret (a : A)
| Throw (e : Error)
| Read (k : Conn -> Prog A)
| Update (f : Conn -> Conn) (k : Prog A)
| Await (w : Awaitable) (k : Settled -> Prog A).

Arguments Ret {A} a.
Arguments Throw {A} e.
Arguments Read {A} k.
Arguments Update {A} f k.
Arguments Await {A} w k.

(** Where a run stops: the call returned, threw, or is suspended. *)
Inductive Susp (A : Type) : Type :=
| Done (a : A)
| Failed (e : Error)
| Waiting (w : Awaitable) (k : Settled -> Prog A).

Arguments Done {A} a.
Arguments Failed {A} e.
Arguments Waiting {A} w k.

(** One synchronous stretch: from the state [s] to the next suspension. *)
Fixpoint run {A} (p : Prog A) (s : Conn) : Conn * Susp A :=
  match p with
  | Ret a => (s, Done a)
  | Throw e => (s, Failed e)
  | Read k => run (k s) s
  | Update f k => run k (f s)
  | Await w k => (s, Waiting w k)
  end.

Fixpoint bind {A B} (p : Prog A) (f : A -> Prog B) : Prog B :=
  match p with
  | Ret a => f a
  | Throw e => Throw e
  | Read k => Read (fun s => bind (k s) f)
  | Update g k => Update g (bind k f)
  | Await w k => Await w (fun r => bind (k r) f)
  end.

(** [try { p } catch (err) { h err }] *)
Fixpoint try_catch {A} (p : Prog A) (h : Error -> Prog A) : Prog A :=
  match p with
  | Ret a => Ret a
  | Throw e => h e
  | Read k => Read (fun s => try_catch (k s) h)
  | Update g k => Update g (try_catch k h)
  | Await w k => Await w (fun r => try_catch (k r) h)
  end.

(** [try { p } finally { f }]: [f] runs however [p] ends, and the way [p]
    ended stands unless [f] throws. *)
Fixpoint try_finally {A} (p : Prog A) (f : Prog unit) : Prog A :=
  match p with
  | Ret a => bind f (fun _ => Ret a)
  | Throw e => bind f (fun _ => Throw e)
  | Read k => Read (fun s => try_finally (k s) f)
  | Update g k => Update g (try_finally k f)
  | Await w k => Await w (fun r => try_finally (k r) f)
  end.

Declare Scope prog_scope.
Delimit Scope prog_scope with prog.
Notation "x <- p ;; q" := (bind p (fun x => q))
  (at level 100, p at next level, right associativity) : prog_scope.
Notation "p ;; q" := (bind p (fun _ => q))
  (at level 100, right associativity) : prog_scope.
Local Open Scope prog_scope.

Definition get : Prog Conn := Read Ret.
Definition modify (f : Conn -> Conn) : Prog unit := Update f (Ret tt).
Definition skip : Prog unit := Ret tt.
Definition when (b : bool) (p : Prog unit) : Prog unit := if b then p else skip.
Arguments when b p /.

(** [await w]: the value of the promise, or its rejection thrown here. *)
Definition await (w : Awaitable) : Prog JsValue :=
  Await w (fun r => match r with Fulfilled v => Ret v | RejectedWith e => Throw e end).

(** The tick an [await] takes when what it awaits has settled already. *)
Definition tick : Prog unit := Await Tick (fun _ => Ret tt).

(** [await f()] for an [async] method [f] of the controller: [f] runs up to
    its own first suspension at once; when it has ended, the caller goes on
    one tick later. *)
Definition awaitCall {A} (p : Prog A) : Prog A :=
  try_catch (a <- p ;; tick ;; Ret a) (fun e => tick ;; Throw e).

(** [return resolvable.promise] at the end of an [async] method: the call's
    own promise follows the action's. *)
Definition returnPromise (r : ActionRef) : Prog unit :=
  await (ResolvablePromise r) ;; Ret tt.

(** ** The methods of ConnectionToCore *)

Definition present {X} (o : option X) : bool :=
  match o with Some _ => true | None => false end.

(** The options of [connect]; a key is [None] when it is [undefined]. *)
Record ConnectOptions : Type := {
  timeoutMs : option Z;
  isAutoConnect : option bool;
  shouldAutoReconnect : option bool;
}.

Definition noOptions : ConnectOptions :=
  {| timeoutMs := None; isAutoConnect := None; shouldAutoReconnect := None |}.

(** An action object literal, allocated: [{ isAutomatic, startTime:
    Date.now(), resolvable: new Resolvable(), error }]. *)
Definition newAction (automatic : bool) (err : option Error) : Prog ActionRef :=
  Read (fun s =>
    Update (set_heap (heap s ++ [{| isCallingHook := false; hookMessageId := None;
                                    startTime := clock s; isAutomatic := automatic;
                                    resolvable := RPending; error := err |}]))
      (Ret (length (heap s)))).

Definition emit (e : Emitted) : Prog unit := modify (add_emitted e).

Definition logStats (action : string) : Prog unit := modify (add_logged (LogStats action)).

Definition logError (action : string) (e : Error) : Prog unit :=
  modify (add_logged (LogError action e)).

Definition resolveAction (r : ActionRef) : Prog unit :=
  modify (mutate r (fun a => set_resolvable (Resolvable_resolve (resolvable a)) a)).

Definition rejectAction (r : ActionRef) (e : Error) : Prog unit :=
  modify (mutate r (fun a => set_resolvable (Resolvable_reject e (resolvable a)) a)).

(** [this.pendingMessages.cancel(new DisconnectedError(this.transport.host))] *)
Definition cancelPending (s : Conn) : Conn :=
  set_pendingMessages
    (Registry.cancel (DisconnectedError (host (transport s))) (pendingMessages s)) s.

(** [await this.transport.connect?.(timeoutMs)] *)
Definition transport_connect (timeout : option Z) : Prog unit :=
  s <- get ;;
  if hasConnect (transport s)
  then modify (add_transportCall (CallConnect timeout)) ;;
       await (TransportConnect timeout) ;; Ret tt
  else tick.

(** [this.transport.disconnect?.()] *)
Definition transport_disconnect : Prog unit :=
  s <- get ;;
  match disconnectFn (transport s) with
  | None => skip
  | Some result =>
      modify (add_transportCall CallDisconnect) ;;
      match result with None => skip | Some e => Throw e end
  end.

Definition isBrowserLaunchError (e : Error) : bool :=
  String.eqb (JsError.name e) "BrowserLaunchError"
  || String.eqb (JsError.name e) "DependenciesMissingError".

(** The error [onResponse] hands to the registry for the error
    [responseError] of a response. *)
Definition normalizeError (s : Conn) (responseError : Error) : Error :=
  let isDisconnected :=
    present (disconnectAction s)
    || String.eqb (JsError.name responseError) SessionClosedOrMissingError_name
    || bool_decide (JsError.isDisconnecting responseError = Some true) in
  let responseError := JsError.deleteIsDisconnecting responseError in
  if isDisconnected && negb (isBrowserLaunchError responseError)
  then DisconnectedError (host (transport s))
  else responseError.

(** [onResponse] is synchronous, does not throw, and touches nothing but
    the registry: it is the registry it leaves. *)
Definition onResponse (id : MsgId) (messageData : JsValue) (s : Conn) : PendingMessages :=
  match messageData with
  | JErr responseError =>
      Registry.reject id (normalizeError s responseError) (pendingMessages s)
  | _ => Registry.resolve id messageData (pendingMessages s)
  end.

Definition onEvent (event : InboundPayload) (s : Conn) : Conn :=
  add_emitted (EmitEvent event) s.

Definition onMessage (payload : InboundPayload) (s : Conn) : Conn :=
  match responseId payload with
  | Some id => set_pendingMessages (onResponse id (data payload) s) s
  | None =>
      if present (listenerId payload) || present (eventType payload)
      then onEvent payload s
      else s
  end.

(** [if (this.connectAction?.hookMessageId) this.onResponse({ responseId,
    data: !this.connectAction.isAutomatic ? new DisconnectedError(host) :
    null })] *)
Definition settleConnectHookRequest (s : Conn) : PendingMessages :=
  match taggedHookRequest s (connectAction s) with
  | Some hookId =>
      onResponse hookId
        (if negb (automatic s (connectAction s))
         then JErr (DisconnectedError (host (transport s)))
         else JNull) s
  | None => pendingMessages s
  end.

(** [if (this.disconnectAction?.hookMessageId) this.onResponse({ responseId,
    data: null })] *)
Definition settleDisconnectHookRequest (s : Conn) : PendingMessages :=
  match taggedHookRequest s (disconnectAction s) with
  | Some hookId => onResponse hookId JNull s
  | None => pendingMessages s
  end.

Definition onConnectionTerminated : Prog unit :=
  s <- get ;;
  if didCallConnectionTerminated s then Ret tt else
  modify (fun s => set_lastDisconnectDate (Some (clock s)) s) ;;
  modify (set_didCallConnectionTerminated true) ;;
  emit EmitDisconnected ;;
  modify (fun s => set_pendingMessages (settleConnectHookRequest s) s) ;;
  modify (set_connectAction None) ;;
  modify (fun s => set_pendingMessages (settleDisconnectHookRequest s) s) ;;
  modify cancelPending ;;
  s <- get ;;
  if afterDisconnectHook (hooks s) then await AfterDisconnectHook ;; Ret tt else tick.

(** The state the teardown, once past its guard, has made when it awaits
    the after-disconnect hook. *)
Definition terminated (s : Conn) : Conn :=
  let s0 := add_emitted EmitDisconnected
              (set_didCallConnectionTerminated true
                 (set_lastDisconnectDate (Some (clock s)) s)) in
  let s1 := set_connectAction None
              (set_pendingMessages (settleConnectHookRequest s0) s0) in
  cancelPending (set_pendingMessages (settleDisconnectHookRequest s1) s1).

Definition afterConnectHook : Prog unit :=
  s <- get ;;
  if present (disconnectAction s) then Ret tt else
  match connectAction s with
  | None => Ret tt
  | Some action =>
      if isResolved (outcomeOf s action) then Ret tt else
      try_finally
        (modify (mutate action (set_isCallingHook true)) ;;
         s <- get ;;
         if afterConnectFn (hooks s)
         then await (AfterConnectFn action) ;; Ret tt
         else tick)
        (modify (mutate action (set_isCallingHook false)))
  end.

Definition beforeDisconnectHook : Prog unit :=
  s <- get ;;
  match disconnectAction s with
  | None => Ret tt
  | Some action =>
      try_finally
        (try_catch
           (modify (mutate action (set_isCallingHook true)) ;;
            s <- get ;;
            if beforeDisconnectFn (hooks s)
            then await (BeforeDisconnectFn action) ;; Ret tt
            else tick)
           (fun err => logError "Error in beforeDisconnect hook" err))
        (modify (mutate action (set_isCallingHook false)))
  end.

Definition connect (options : ConnectOptions) : Prog unit :=
  s <- get ;;
  if callingHook s (disconnectAction s) then Ret tt else
  match connectAction s with
  | Some live => returnPromise live
  | None =>
      match shouldAutoReconnect options with
      | Some b => modify (set_autoReconnect b)
      | None => skip
      end ;;
      action <- newAction (default false (isAutoConnect options)) None ;;
      modify (set_disconnectAction None) ;;
      try_catch
        (modify (set_connectAction (Some action)) ;;
         transport_connect (timeoutMs options) ;;
         modify (set_didCallConnectionTerminated false) ;;
         awaitCall afterConnectHook ;;
         resolveAction action ;;
         emit EmitConnected)
        (fun err =>
           modify (set_connectAction None) ;;
           rejectAction action err) ;;
      returnPromise action
  end.

(** The [try] block of [disconnect] from the transport's disconnect on
    (lines 125 to 132). *)
Definition closeTransport : Prog unit :=
  transport_disconnect ;;
  awaitCall onConnectionTerminated ;;
  modify (set_connectAction None) ;;
  logStats "ConnectionToCore.Disconnected".
Arguments closeTransport : simpl never.

Definition disconnect (fatalError : option Error) : Prog unit :=
  modify (set_autoReconnect false) ;;
  s <- get ;;
  match disconnectAction s with
  | Some live => returnPromise live
  | None =>
      action <- newAction false fatalError ;;
      modify (set_disconnectAction (Some action)) ;;
      try_finally
        (logStats "ConnectionToCore.Disconnecting" ;;
         modify cancelPending ;;
         awaitCall beforeDisconnectHook ;;
         closeTransport)
        (resolveAction action) ;;
      returnPromise action
  end.

Definition hasActiveSessions : bool := false.

Definition shouldAutoConnect (s : Conn) : bool :=
  if negb (autoReconnect s) || present (connectAction s) then false
  else if present (taggedHookRequest s (disconnectAction s)) then false
  else match lastDisconnectDate s with
       | None => true
       | Some lastDisconnect =>
           match MinimumAutoReconnectMillis s with
           | NaN => false
           | Num reconnectMillis => (reconnectMillis <=? clock s - lastDisconnect)%Z
           end
       end.

(** [this.connectAction?.isCallingHook && this.connectAction] *)
Definition activeHook (s : Conn) (o : option ActionRef) : option ActionRef :=
  if callingHook s o then o else None.

Definition tagHookMessage (o : option ActionRef) (v : option MsgId) : Prog unit :=
  match o with
  | Some r => modify (mutate r (set_hookMessageId v))
  | None => skip
  end.
Arguments tagHookMessage o v /.

Definition sendRequest (payload : RequestPayload) (timeout : option Z) : Prog JsValue :=
  s <- get ;;
  let activeConnectHook := activeHook s (connectAction s) in
  let activeDisconnectHook := activeHook s (disconnectAction s) in
  when (shouldAutoConnect s)
    (awaitCall (connect {| timeoutMs := timeout; isAutoConnect := Some true;
                           shouldAutoReconnect := None |})) ;;
  id <- Read (fun s =>
          let '(id, reg) :=
            Registry.create (clock s) timeout
              (present activeConnectHook || present activeDisconnectHook)
              (pendingMessages s) in
          Update (set_pendingMessages reg) (Ret id)) ;;
  tagHookMessage activeConnectHook (Some id) ;;
  tagHookMessage activeDisconnectHook (Some id) ;;
  try_finally
    (try_catch
       (modify (fun s => add_transportCall
                  (CallSend {| envPayload := payload; messageId := id;
                               sendTime := clock s |}) s) ;;
        await (ResponseAndSend id))
       (fun error =>
          modify (fun s => set_pendingMessages (Registry.delete id (pendingMessages s)) s) ;;
          s <- get ;;
          if present (disconnectAction s) && JsError.canceled error
          then Ret JUndefined
          else Throw error))
    (tagHookMessage activeConnectHook None ;;
     tagHookMessage activeDisconnectHook None).

(** ** Executions *)

(** How an awaited thing may settle in the state [s]: a tick and the
    promise of a resolvable follow the controller's own state, a response
    is fulfilled only with the value the registry recorded for its id (the
    paired [transport.send] may fail with any error), and the transport and
    the hooks answer as they please. *)
Definition answers (s : Conn) (w : Awaitable) (r : Settled) : Prop :=
  match w with
  | Tick => r = Fulfilled JUndefined
  | ResolvablePromise a =>
      match outcomeOf s a with
      | RPending => False
      | RResolved => r = Fulfilled JUndefined
      | RRejected e => r = RejectedWith e
      end
  | ResponseAndSend id =>
      match r with
      | Fulfilled v => outcomes (pendingMessages s) !! id = Some (Fulfilled v)
      | RejectedWith _ => True
      end
  | TransportConnect _ | AfterConnectFn _ | BeforeDisconnectFn _ | AfterDisconnectHook =>
      True
  end.

(** An execution of a call: its synchronous stretches, and between two of
    them whatever the rest of the system does to the controller while the
    call is suspended, as far as [rely] allows.  The trace lists what the
    call awaited and how that settled. *)
Inductive Exec {A} (rely : Conn -> Conn -> Prop) :
    Prog A -> Conn -> list (Awaitable * Settled) -> Conn -> Susp A -> Prop :=
| Exec_stop p s s' out :
    run p s = (s', out) ->
    Exec rely p s [] s' out
| Exec_resume p s s1 w k s1' r trace s2 out :
    run p s = (s1, Waiting w k) ->
    rely s1 s1' ->
    answers s1' w r ->
    Exec rely (k r) s1' trace s2 out ->
    Exec rely p s ((w, r) :: trace) s2 out.

(** The next stretch of a suspended call, once what it awaits has settled
    as [r]. *)
Definition resumeWith {A} (r : Settled) (x : Conn * Susp A) : Conn * Susp A :=
  match x with
  | (s, Waiting _ k) => run (k r) s
  | _ => x
  end.

(** While a call is suspended nobody else settles the outcome of its
    action [a]: only the call that made an action holds its resolvable. *)
Definition leavesOutcome (a : ActionRef) (s s' : Conn) : Prop :=
  resolvableAt s' a = resolvableAt s a.

(** What a suspended [disconnect()] relies on: its action's outcome is left
    alone, the transport is the one given at construction, and the log is
    only added to, by others, with lines that are [foreign] to the call. *)
Definition disconnectRely (foreign : LogLine -> Prop) (d : ActionRef) (s s' : Conn)
    : Prop :=
  leavesOutcome d s s'
  /\ transport s' = transport s
  /\ exists added, logged s' = logged s ++ added /\ Forall foreign added.

(** The call's own promise follows a resolvable: what is left of the call is
    to hand on how that resolvable settled. *)
Definition follows (k : Settled -> Prog unit) : Prop :=
  forall r s,
    run (k r) s = (s, match r with Fulfilled _ => Done tt | RejectedWith e => Failed e end).

(** A call joins the action [live]: it changes the controller from [s] to
    [s'], starts nothing, and its promise follows the outcome of [live]. *)
Definition joins (p : Prog unit) (s s' : Conn) (live : ActionRef) : Prop :=
  exists k, run p s = (s', Waiting (ResolvablePromise live) k) /\ follows k.


(** ** Scenarios *)

(** A transport with [connect] and [disconnect], all three hooks set. *)
Definition sampleTransport : ITransport :=
  {| host := "core.local:1818"; hasConnect := true; disconnectFn := Some None |}.

Definition allHooks : Hooks :=
  {| afterConnectFn := true; beforeDisconnectFn := true; afterDisconnectHook := true |}.

Definition fresh : Conn := newConnectionToCore sampleTransport allHooks 0.

Definition boom : Error :=
  {| JsError.name := "Error"; JsError.message := "boom"; JsError.host := None;
     JsError.canceled := false; JsError.isDisconnecting := None |}.

Definition launchError : Error :=
  {| JsError.name := "BrowserLaunchError"; JsError.message := "Failed to launch";
     JsError.host := None; JsError.canceled := false;
     JsError.isDisconnecting := Some true |}.

Definition ping : RequestPayload :=
  {| command := "ping"; args := JNull; commandId := None; reqStartTime := None |}.

(** [connect()] was called on a new controller and waits for the
    transport. *)
Definition connecting : Conn := fst (run (connect noOptions) fresh).

(** Then [disconnect()] was called, and its before-disconnect hook runs. *)
Definition connectingAndDisconnecting : Conn := fst (run (disconnect None) connecting).

(** The transport's connect has failed with [boom]: the call is at its
    [return]. *)
Definition connectFailed : Conn * Susp unit :=
  resumeWith (RejectedWith boom) (run (connect noOptions) fresh).

(** The transport has connected and the after-connect hook runs. *)
Definition inAfterConnectHook : Conn :=
  fst (resumeWith (Fulfilled JUndefined) (run (connect noOptions) fresh)).

(** The hook has sent a request of its own, message 1. *)
Definition hookRequested : Conn := fst (run (sendRequest ping None) inAfterConnectHook).

(** The same when the connect was started by a [sendRequest], which still
    awaits that connect: message 1 is again the hook's. *)
Definition autoHookRequested : Conn :=
  fst (run (sendRequest ping None)
         (fst (resumeWith (Fulfilled JUndefined) (run (sendRequest ping None) fresh)))).

(** A request is in flight: [sendRequest] was called while the controller
    was connecting, and waits for the response to message 1. *)
Definition requested : Conn := fst (run (sendRequest ping None) connecting).

(** How that request goes on once its awaited outcome has settled. *)
Definition requestContinuation : Settled -> Prog JsValue :=
  match snd (run (sendRequest ping None) connecting) with
  | Waiting _ k => k
  | _ => fun _ => Ret JUndefined
  end.

(** [disconnect()] was called while the request was outstanding. *)
Definition requestedAndDisconnecting : Conn := fst (run (disconnect None) requested).

(** The controller at the suspension of the teardown that the transport's
    [disconnected] event started while connecting. *)
Definition tornDown : Conn := fst (run onConnectionTerminated connecting).

(** A [disconnect()] of the connecting controller whose teardown fails: the
    before-disconnect hook returns, the after-disconnect hook throws
    [boom]. *)
Definition failingDisconnectTrace : list (Awaitable * Settled) :=
  [(BeforeDisconnectFn 1, Fulfilled JUndefined); (Tick, Fulfilled JUndefined);
   (AfterDisconnectHook, RejectedWith boom); (Tick, Fulfilled JUndefined)].

Definition disconnectFailed : Conn * Susp unit :=
  resumeWith (Fulfilled JUndefined)
    (resumeWith (RejectedWith boom)
       (resumeWith (Fulfilled JUndefined)
          (resumeWith (Fulfilled JUndefined) (run (disconnect None) connecting)))).

(** The before-disconnect hook of [connectingAndDisconnecting] has sent a
    request of its own, message 1. *)
Definition disconnectHookRequested : Conn :=
  fst (run (sendRequest ping None) connectingAndDisconnecting).

(** A [connect()] of a new controller in which the transport connects and
    the after-connect hook returns. *)
Definition connectedTrace : list (Awaitable * Settled) :=
  [(TransportConnect None, Fulfilled JUndefined);
   (AfterConnectFn 0, Fulfilled JUndefined);
   (Tick, Fulfilled JUndefined);
   (ResolvablePromise 0, Fulfilled JUndefined)].

Definition connected : Conn * Susp unit :=
  resumeWith (Fulfilled JUndefined)
    (resumeWith (Fulfilled JUndefined)
       (resumeWith (Fulfilled JUndefined)
          (resumeWith (Fulfilled JUndefined) (run (connect noOptions) fresh)))).

(** A [disconnect()] of that connected controller in which both hooks
    return. *)
Definition disconnectedTrace : list (Awaitable * Settled) :=
  [(BeforeDisconnectFn 1, Fulfilled JUndefined);
   (Tick, Fulfilled JUndefined);
   (AfterDisconnectHook, Fulfilled JUndefined);
   (Tick, Fulfilled JUndefined);
   (ResolvablePromise 1, Fulfilled JUndefined)].

Definition disconnected : Conn * Susp unit :=
  resumeWith (Fulfilled JUndefined)
    (resumeWith (Fulfilled JUndefined)
       (resumeWith (Fulfilled JUndefined)
          (resumeWith (Fulfilled JUndefined)
             (resumeWith (Fulfilled JUndefined)
                (run (disconnect None) (fst connected)))))).

(** A request on a new controller whose automatic connect fails in the
    transport. *)
Definition requestFailedTrace : list (Awaitable * Settled) :=
  [(TransportConnect None, RejectedWith boom);
   (ResolvablePromise 0, RejectedWith boom);
   (Tick, Fulfilled JUndefined)].

Definition requestFailed : Conn * Susp JsValue :=
  resumeWith (Fulfilled JUndefined)
    (resumeWith (RejectedWith boom)
       (resumeWith (RejectedWith boom) (run (sendRequest ping None) fresh))).

(** ** WebsocketSession: the callback channel of agent/main

    A shallow embedding of [src/agent/main/lib/WebsocketSession.js], as far
    as it keeps the map from client ids to frame ids, keeps the websockets
    of the clients alive, and queues the messages of the injected script.
    The http and websocket servers are not modelled: an url is given as
    what [new URL] makes of it, a message as what [JSON.parse] makes of
    it. *)

Module WebsocketSession.

(** The result of [new URL(url)]: [None] when the constructor throws. *)
Record Url : Type := {
  hostname : string;
  urlPort : string;
  searchParams : list (string * string);
}.

(** [searchParams.get(name)]: the first value of the name, or [null]. *)
Fixpoint searchParams_get (name : string) (params : list (string * string))
    : option string :=
  match params with
  | [] => None
  | (key, value) :: rest =>
      if String.eqb key name then Some value else searchParams_get name rest
  end.

(** What the map holds for a client: its frame id, or the resolvable that
    [handleMessage] made while the frame id was not known. *)
Inductive Target : Type :=
| FrameId (frameId : string)
| Awaited (resolvable : nat).

Record MessageReceived : Type := {
  id : string;
  name : string;
  payload : string;
}.

(** The session: [port] is the decimal numeral of the port, [None] until
    the server listens; a client id is [None] when it is [null]; a
    resolvable of the heap is [None] until it is resolved. *)
Record t : Type := mk {
  host : string;
  port : option string;
  secret : string;
  clientIdToTargetId : gmap (option string) Target;
  resolvables : list (option string);
  emitted : list MessageReceived;
}.

(** The session after its constructor, with the secret it drew. *)
Definition new (secret : string) : t :=
  {| host := "websocket.localhost"; port := None; secret := secret;
     clientIdToTargetId := ∅; resolvables := []; emitted := [] |}.

Definition set_clientIdToTargetId (m : gmap (option string) Target) (s : t) : t :=
  mk (host s) (port s) (secret s) m (resolvables s) (emitted s).

Definition set_resolvables (l : list (option string)) (s : t) : t :=
  mk (host s) (port s) (secret s) (clientIdToTargetId s) l (emitted s).

Definition emit (e : MessageReceived) (s : t) : t :=
  mk (host s) (port s) (secret s) (clientIdToTargetId s) (resolvables s)
    (emitted s ++ [e]).

(** [resolvable.resolve(value)]: the first resolution stands. *)
Definition resolve (r : nat) (value : string) (s : t) : t :=
  set_resolvables
    (alter (fun old => match old with None => Some value | Some _ => old end) r
       (resolvables s)) s.

(** [isWebsocketUrl(url)].  Before the server listens [this.port] is
    undefined and [this.port.toString()] throws, which the [catch] turns
    into [false]; it is only evaluated when the host names are equal. *)
Definition isWebsocketUrl (url : option Url) (s : t) : bool :=
  match url with
  | None => false
  | Some parsed =>
      if String.eqb (hostname parsed) (host s)
      then match port s with
           | None => false
           | Some listening =>
               String.eqb (urlPort parsed) listening
               && bool_decide (searchParams_get "secret" (searchParams parsed)
                               = Some (secret s))
           end
      else false
  end.

(** [registerWebsocketFrameId(url, frameId)]: [None] when [new URL(url)]
    throws, which the method does not catch. *)
Definition registerWebsocketFrameId (url : option Url) (frameId : string) (s : t)
    : option t :=
  match url with
  | None => None
  | Some parsed =>
      Some
        (if negb (bool_decide (searchParams_get "secret" (searchParams parsed)
                               = Some (secret s)))
         then s
         else match searchParams_get "clientId" (searchParams parsed) with
              | None => s
              | Some clientId =>
                  if String.eqb clientId "" then s
                  else
                    let s' :=
                      match clientIdToTargetId s !! Some clientId with
                      | Some (Awaited r) => resolve r frameId s
                      | _ => s
                      end in
                    set_clientIdToTargetId
                      (<[Some clientId := FrameId frameId]> (clientIdToTargetId s')) s'
              end)
  end.

(** Where a [handleMessage] call stands after its synchronous part. *)
Inductive Handling : Type :=
| Received
| AwaitsFrameId (resolvable : nat) (name payload : string)
| SyntaxError.

(** [handleMessage(clientId, data)] up to its [await], for [data] as
    [JSON.parse] reads it ([None]: it throws). *)
Definition handleMessage (clientId : option string) (data : option (string * string))
    (s : t) : t * Handling :=
  match data with
  | None => (s, SyntaxError)
  | Some (name, payload) =>
      match clientIdToTargetId s !! clientId with
      | Some (Awaited r) => (s, AwaitsFrameId r name payload)
      | Some (FrameId frameId) =>
          if String.eqb frameId ""
          then (set_clientIdToTargetId
                  (<[clientId := Awaited (length (resolvables s))]> (clientIdToTargetId s))
                  (set_resolvables (resolvables s ++ [None]) s),
                AwaitsFrameId (length (resolvables s)) name payload)
          else (emit {| id := frameId; name := name; payload := payload |} s, Received)
      | None =>
          (set_clientIdToTargetId
             (<[clientId := Awaited (length (resolvables s))]> (clientIdToTargetId s))
             (set_resolvables (resolvables s ++ [None]) s),
           AwaitsFrameId (length (resolvables s)) name payload)
      end
  end.

(** The rest of a [handleMessage] call that awaits the resolvable [r]:
    once [r] is resolved, the event is emitted with the frame id it was
    resolved with; until then the call stays suspended ([None]). *)
Definition handleMessage_resume (r : nat) (name payload : string) (s : t) : option t :=
  match resolvables s !! r with
  | Some (Some frameId) =>
      Some (emit {| id := frameId; name := name; payload := payload |} s)
  | _ => None
  end.

(** A websocket of a client, as [handleConnection] keeps it alive: the
    local [isAlive], whether the interval still runs, the pings sent and
    whether the socket was terminated.  (The set [intervals], which only
    [close] reads, is left out.) *)
Record Connection : Type := {
  connectionClientId : option string;
  isAlive : bool;
  intervalRuns : bool;
  pings : nat;
  terminated : bool;
}.

(** [handleConnection(ws, request, clientId)] *)
Definition handleConnection (clientId : option string) : Connection :=
  {| connectionClientId := clientId; isAlive := true; intervalRuns := true;
     pings := 0; terminated := false |}.

(** What happens to a connection: a pong of the client, or the interval of
    30 seconds fires. *)
Inductive SocketEvent : Type :=
| Pong
| IntervalFired.

(** [ws.on('pong', ...)] *)
Definition onPong (c : Connection) : Connection :=
  {| connectionClientId := connectionClientId c; isAlive := true;
     intervalRuns := intervalRuns c; pings := pings c; terminated := terminated c |}.

(** The callback of [setInterval]. *)
Definition onInterval (s : t) (c : Connection) : t * Connection :=
  if isAlive c
  then (s, {| connectionClientId := connectionClientId c; isAlive := false;
              intervalRuns := intervalRuns c; pings := S (pings c);
              terminated := terminated c |})
  else (set_clientIdToTargetId
          (delete (connectionClientId c) (clientIdToTargetId s)) s,
        {| connectionClientId := connectionClientId c; isAlive := isAlive c;
           intervalRuns := false; pings := pings c; terminated := true |}).

(** An interval that was cleared fires no more. *)
Definition socketEvent (x : t * Connection) (e : SocketEvent) : t * Connection :=
  match e with
  | Pong => (fst x, onPong (snd x))
  | IntervalFired => if intervalRuns (snd x) then onInterval (fst x) (snd x) else x
  end.

Definition socketEvents (events : list SocketEvent) (x : t * Connection)
    : t * Connection :=
  fold_left socketEvent events x.

(** The state of [injectedScript] in a page: [isReady], the queue and what
    was handed to [socket.send], oldest first. *)
Record Injected : Type := {
  isReady : bool;
  queuedCallbacks : list (string * string);
  sent : list (string * string);
}.

Definition injectedScript : Injected :=
  {| isReady := false; queuedCallbacks := []; sent := [] |}.

(** [callback(name, payload)] *)
Definition callback (message : string * string) (p : Injected) : Injected :=
  if negb (isReady p)
  then {| isReady := isReady p; queuedCallbacks := queuedCallbacks p ++ [message];
          sent := sent p |}
  else {| isReady := isReady p; queuedCallbacks := queuedCallbacks p;
          sent := sent p ++ [message] |}.

(** The loop of the [open] listener: [shift] and send until the queue is
    empty. *)
Fixpoint sendQueued (queue sent : list (string * string)) : list (string * string) :=
  match queue with
  | [] => sent
  | queuedCallback :: rest => sendQueued rest (sent ++ [queuedCallback])
  end.

Definition onOpen (p : Injected) : Injected :=
  {| isReady := true; queuedCallbacks := [];
     sent := sendQueued (queuedCallbacks p) (sent p) |}.

Inductive ScriptEvent : Type :=
| Callback (message : string * string)
| SocketOpen.

Definition scriptEvent (p : Injected) (e : ScriptEvent) : Injected :=
  match e with
  | Callback message => callback message p
  | SocketOpen => onOpen p
  end.

Definition scriptEvents (events : list ScriptEvent) (p : Injected) : Injected :=
  fold_left scriptEvent events p.

(** The messages of the calls of [callback] among the events, in order. *)
Definition callbacks (events : list ScriptEvent) : list (string * string) :=
  omap (fun e => match e with Callback message => Some message | SocketOpen => None end)
    events.

End WebsocketSession.

(** ** Evaluation of runs *)

(** A run is evaluated down to states written field by field: the field
    updates unfold, the registry and the tests on actions stay folded. *)
Arguments set_connectAction v s /.
Arguments set_disconnectAction v s /.
Arguments set_autoReconnect v s /.
Arguments set_pendingMessages v s /.
Arguments set_didCallConnectionTerminated v s /.
Arguments set_lastDisconnectDate v s /.
Arguments set_heap v s /.
Arguments set_clock v s /.
Arguments set_MinimumAutoReconnectMillis v s /.
Arguments add_emitted v s /.
Arguments add_transportCall v s /.
Arguments add_logged v s /.
Arguments mutate r f s /.
Arguments cancelPending s /.
Arguments resolvableAt s a /.
Arguments outcomeOf s a /.
Arguments set_isCallingHook : simpl never.
Arguments set_hookMessageId : simpl never.
Arguments set_resolvable : simpl never.
Arguments Resolvable_resolve : simpl never.
Arguments Resolvable_reject : simpl never.
Arguments outcomeIn : simpl never.
Arguments Registry.cancel : simpl never.
Arguments Registry.settle : simpl never.
Arguments Registry.resolve : simpl never.
Arguments Registry.reject : simpl never.
Arguments Registry.delete : simpl never.
Arguments DisconnectedError : simpl never.
Arguments normalizeError : simpl never.
Arguments onResponse : simpl never.
Arguments settleConnectHookRequest : simpl never.
Arguments settleDisconnectHookRequest : simpl never.
Arguments shouldAutoConnect : simpl never.
Arguments callingHook : simpl never.
Arguments taggedHookRequest : simpl never.
Arguments activeHook : simpl never.
Arguments automatic : simpl never.

(** ** The registry *)

Lemma settle_pending (id : MsgId) (o : Settled) (r : PendingMessages) :
  Registry.isPending id r ->
  entries (Registry.settle id o r) !! id = None
  /\ outcomes (Registry.settle id o r) !! id = Some o.
Proof.
  intros [entry Hentry]. unfold Registry.settle. rewrite Hentry. simpl.
  split; [apply lookup_delete_eq | apply lookup_insert_eq].
Qed.

Lemma settle_settled (id id' : MsgId) (o : Settled) (r : PendingMessages) :
  entries r !! id = None ->
  entries (Registry.settle id' o r) !! id = None
  /\ outcomes (Registry.settle id' o r) !! id = outcomes r !! id.
Proof.
  intros Hgone. unfold Registry.settle.
  destruct (entries r !! id') eqn:Hentry; simpl; [|done].
  assert (id' <> id) by congruence.
  split; [by rewrite lookup_delete_ne | by rewrite lookup_insert_ne].
Qed.

Lemma cancel_settled (id : MsgId) (e : Error) (r : PendingMessages) :
  entries r !! id = None ->
  entries (Registry.cancel e r) !! id = None
  /\ outcomes (Registry.cancel e r) !! id = outcomes r !! id.
Proof.
  intros Hgone. unfold Registry.cancel. simpl. split; [done|].
  apply lookup_union_r. by rewrite lookup_fmap, Hgone.
Qed.

(** ** Error normalization *)

Lemma deleteIsDisconnecting_unmarked (e : Error) :
  JsError.isDisconnecting e = None -> JsError.deleteIsDisconnecting e = e.
Proof. destruct e as [n m h c d]. simpl. intros ->. reflexivity. Qed.

Lemma normalizeError_cases (s : Conn) (e : Error) :
  normalizeError s e =
    if isBrowserLaunchError e then JsError.deleteIsDisconnecting e
    else if present (disconnectAction s)
            || String.eqb (JsError.name e) SessionClosedOrMissingError_name
            || bool_decide (JsError.isDisconnecting e = Some true)
         then DisconnectedError (host (transport s))
         else JsError.deleteIsDisconnecting e.
Proof.
  unfold normalizeError.
  replace (isBrowserLaunchError (JsError.deleteIsDisconnecting e))
    with (isBrowserLaunchError e) by reflexivity.
  destruct (isBrowserLaunchError e); simpl.
  - by rewrite andb_false_r.
  - by rewrite andb_true_r.
Qed.

Lemma normalizeError_DisconnectedError (s : Conn) (h : string) :
  host (transport s) = h ->
  normalizeError s (DisconnectedError h) = DisconnectedError h.
Proof.
  intros <-. rewrite normalizeError_cases.
  by destruct (present (disconnectAction s)).
Qed.

(** ** The outcome of an action under the updates of the heap *)

Lemma outcomeIn_alter_frame f r h a :
  (forall x, resolvable (f x) = resolvable x) ->
  outcomeIn (alter f r h) a = outcomeIn h a.
Proof.
  intros Hf. unfold outcomeIn.
  destruct (decide (r = a)) as [->|Hne].
  - rewrite list_lookup_alter_eq. destruct (h !! a); simpl; [by rewrite Hf|done].
  - by rewrite list_lookup_alter_ne.
Qed.

Lemma outcomeIn_isCallingHook v r h a :
  outcomeIn (alter (set_isCallingHook v) r h) a = outcomeIn h a.
Proof. by apply outcomeIn_alter_frame. Qed.

Lemma outcomeIn_hookMessageId v r h a :
  outcomeIn (alter (set_hookMessageId v) r h) a = outcomeIn h a.
Proof. by apply outcomeIn_alter_frame. Qed.

Lemma outcomeIn_settle g h a :
  outcomeIn (alter (fun x => set_resolvable (g (resolvable x)) x) a h) a
  = g <$> outcomeIn h a.
Proof.
  unfold outcomeIn. rewrite list_lookup_alter_eq. by destruct (h !! a).
Qed.

Lemma outcomeIn_alloc (h : list IConnectAction) x :
  outcomeIn (h ++ [x]) (length h) = Some (resolvable x).
Proof. unfold outcomeIn. by rewrite list_lookup_middle. Qed.


Lemma Resolvable_resolve_pending : Resolvable_resolve RPending = RResolved.
Proof. reflexivity. Qed.

Lemma Resolvable_resolve_resolved : Resolvable_resolve RResolved = RResolved.
Proof. reflexivity. Qed.

Lemma Resolvable_resolve_rejected e : Resolvable_resolve (RRejected e) = RRejected e.
Proof. reflexivity. Qed.

Lemma Resolvable_reject_pending e : Resolvable_reject e RPending = RRejected e.
Proof. reflexivity. Qed.

Lemma Resolvable_reject_resolved e : Resolvable_reject e RResolved = RResolved.
Proof. reflexivity. Qed.

Lemma Resolvable_reject_rejected e e' : Resolvable_reject e (RRejected e') = RRejected e'.
Proof. reflexivity. Qed.

Create Rewrite HintDb conn.
#[global] Hint Rewrite outcomeIn_isCallingHook outcomeIn_hookMessageId
  outcomeIn_settle outcomeIn_alloc
  Resolvable_resolve_pending Resolvable_resolve_resolved Resolvable_resolve_rejected
  Resolvable_reject_pending Resolvable_reject_resolved Resolvable_reject_rejected : conn.

(** ** shouldAutoConnect *)

(** C5: [shouldAutoConnect()] is false when auto-reconnect is off, when a
    connect action is live, and when the disconnect action has a hook
    request in flight; otherwise it is true if there has been no disconnect
    yet, and after a disconnect it is true exactly when the time since then
    has reached the minimum interval, which is 1000 ms by default; with an
    interval that is not a number it is false after a disconnect. *)
Theorem shouldAutoConnect_policy (s : Conn) :
  (autoReconnect s = false -> shouldAutoConnect s = false)
  /\ (connectAction s <> None -> shouldAutoConnect s = false)
  /\ (taggedHookRequest s (disconnectAction s) <> None -> shouldAutoConnect s = false)
  /\ (autoReconnect s = true -> connectAction s = None ->
      taggedHookRequest s (disconnectAction s) = None ->
      (lastDisconnectDate s = None -> shouldAutoConnect s = true)
      /\ (forall last millis,
            lastDisconnectDate s = Some last ->
            MinimumAutoReconnectMillis s = Num millis ->
            (shouldAutoConnect s = true <-> (millis <= clock s - last)%Z))
      /\ (forall last,
            lastDisconnectDate s = Some last ->
            MinimumAutoReconnectMillis s = NaN ->
            shouldAutoConnect s = false))
  /\ (forall t h now,
        MinimumAutoReconnectMillis (newConnectionToCore t h now) = Num 1000).
Proof.
  unfold shouldAutoConnect.
  split; [intros ->; reflexivity|].
  split.
  { destruct (connectAction s); [intros _; by rewrite orb_true_r|congruence]. }
  split.
  { destruct (taggedHookRequest s (disconnectAction s)); [intros _|congruence].
    by destruct (negb _ || _). }
  split; [|reflexivity].
  intros -> -> ->. simpl.
  split; [intros ->; reflexivity|].
  split.
  - intros last millis -> ->. apply Z.leb_le.
  - intros last -> ->. reflexivity.
Qed.

Lemma shouldAutoConnect_policy_witness :
  shouldAutoConnect (set_lastDisconnectDate (Some 5000) (set_clock 5999 fresh)) = false
  /\ shouldAutoConnect (set_lastDisconnectDate (Some 5000) (set_clock 6000 fresh)) = true.
Proof.
  split.
  - destruct (shouldAutoConnect _) eqn:E; [|reflexivity].
    eapply (shouldAutoConnect_policy _) in E; [| reflexivity ..].
    simpl in E. lia.
  - eapply (shouldAutoConnect_policy _); [reflexivity ..|]. simpl. lia.
Defined.

Lemma returnPromise_follows (a : ActionRef) (s : Conn) :
  exists k, run (returnPromise a) s = (s, Waiting (ResolvablePromise a) k) /\ follows k.
Proof.
  eexists. split; [reflexivity|]. intros [v|e] s'; reflexivity.
Qed.

Lemma leavesOutcome_refl (a : ActionRef) (s : Conn) : leavesOutcome a s s.
Proof. reflexivity. Qed.

Lemma disconnectRely_refl (foreign : LogLine -> Prop) (d : ActionRef) (s : Conn) :
  disconnectRely foreign d s s.
Proof.
  split; [reflexivity|]. split; [reflexivity|].
  exists []. by rewrite app_nil_r.
Qed.

(** ** Joining a live action *)

(** C1, as amended: a [connect()] call made while a connect action is live
    and no before-disconnect hook is running returns the outcome of that
    action, leaves the controller as it is and so calls the transport no
    second time; a [disconnect()] call made while a disconnect action is
    live returns the outcome of that action and does no more than switch
    auto-reconnect off. *)
Theorem live_action_is_joined :
  (forall s live options,
      connectAction s = Some live ->
      callingHook s (disconnectAction s) = false ->
      joins (connect options) s s live)
  /\ (forall s live fatalError,
      disconnectAction s = Some live ->
      joins (disconnect fatalError) s (set_autoReconnect false s) live
      /\ transportCalls (set_autoReconnect false s) = transportCalls s
      /\ heap (set_autoReconnect false s) = heap s).
Proof.
  split.
  - intros s live options Hlive Hgate. unfold joins, connect. simpl.
    rewrite Hgate, Hlive. apply returnPromise_follows.
  - intros s live fatalError Hlive. split; [|split; reflexivity].
    unfold joins, disconnect. simpl. rewrite Hlive.
    apply returnPromise_follows.
Qed.

Lemma live_action_is_joined_witness :
  joins (connect noOptions) connecting connecting 0
  /\ joins (disconnect None) connectingAndDisconnecting
       (set_autoReconnect false connectingAndDisconnecting) 1.
Proof.
  split.
  - apply (proj1 live_action_is_joined); reflexivity.
  - apply (proj2 live_action_is_joined connectingAndDisconnecting 1%nat None).
    reflexivity.
Defined.

(** C1, as stated, fails: while the before-disconnect hook runs, a
    [connect()] call returns at once although the live connect action is
    still pending. *)
Lemma connect_during_disconnect_hook_returns_at_once :
  connectAction connectingAndDisconnecting = Some 0%nat
  /\ outcomeOf connectingAndDisconnecting 0 = RPending
  /\ callingHook connectingAndDisconnecting
       (disconnectAction connectingAndDisconnecting) = true
  /\ run (connect noOptions) connectingAndDisconnecting
     = (connectingAndDisconnecting, Done tt).
Proof. repeat split. Qed.

(** C9: a [connect(options)] call made while a connect action is live
    leaves the controller's state as it is, [autoReconnect] included,
    whatever the options say. *)
Theorem connect_while_live_changes_nothing (s : Conn) (live : ActionRef)
    (options : ConnectOptions) :
  connectAction s = Some live ->
  fst (run (connect options) s) = s
  /\ autoReconnect (fst (run (connect options) s)) = autoReconnect s
  /\ run (connect options) s = run (connect noOptions) s.
Proof.
  intros Hlive. unfold connect. simpl. rewrite Hlive.
  destruct (callingHook s (disconnectAction s)); repeat split.
Qed.

Lemma connect_while_live_changes_nothing_witness :
  fst (run (connect {| timeoutMs := None; isAutoConnect := None;
                       shouldAutoReconnect := Some false |}) connecting) = connecting
  /\ autoReconnect
       (fst (run (connect {| timeoutMs := None; isAutoConnect := None;
                             shouldAutoReconnect := Some false |}) connecting))
     = autoReconnect connecting
  /\ run (connect {| timeoutMs := None; isAutoConnect := None;
                     shouldAutoReconnect := Some false |}) connecting
     = run (connect noOptions) connecting.
Proof.
  apply (connect_while_live_changes_nothing connecting 0%nat). reflexivity.
Defined.

(** ** Inbound routing *)

(** C10: a transport message that has neither a [responseId] nor a
    [listenerId] or [eventType] leaves the controller as it is: registry,
    emitted events and every other field. *)
Theorem onMessage_ignores_unclassified (s : Conn) (payload : InboundPayload) :
  responseId payload = None ->
  listenerId payload = None ->
  eventType payload = None ->
  onMessage payload s = s.
Proof.
  intros Hresponse Hlistener Hevent. unfold onMessage.
  rewrite Hresponse, Hlistener, Hevent. reflexivity.
Qed.

Lemma onMessage_ignores_unclassified_witness :
  onMessage {| responseId := None; data := JStr "ping"; listenerId := None;
               eventType := None |} requested
  = requested.
Proof.
  apply onMessage_ignores_unclassified; reflexivity.
Defined.

(** C6, as amended: for a response to a pending request, a success payload
    is delivered as it is; an error payload loses its [isDisconnecting]
    property and is then delivered in place of the canonical
    DisconnectedError of the transport's host exactly when it is a
    browser-launch or missing-dependencies error, or when no disconnect
    action is present, its name is not that of a closed or missing session
    and it was not marked [isDisconnecting]; an error without that property
    is so delivered unchanged. *)
Theorem onResponse_normalizes (s : Conn) (payload : InboundPayload) (id : MsgId) :
  responseId payload = Some id ->
  Registry.isPending id (pendingMessages s) ->
  entries (pendingMessages (onMessage payload s)) !! id = None
  /\ outcomes (pendingMessages (onMessage payload s)) !! id = Some
       match data payload with
       | JErr e =>
           RejectedWith
             (if isBrowserLaunchError e then JsError.deleteIsDisconnecting e
              else if present (disconnectAction s)
                      || String.eqb (JsError.name e) SessionClosedOrMissingError_name
                      || bool_decide (JsError.isDisconnecting e = Some true)
                   then DisconnectedError (host (transport s))
                   else JsError.deleteIsDisconnecting e)
       | v => Fulfilled v
       end
  /\ (forall e, data payload = JErr e -> JsError.isDisconnecting e = None ->
        JsError.deleteIsDisconnecting e = e).
Proof.
  intros Hid Hpending. unfold onMessage. rewrite Hid.
  assert (Hunmarked : forall e, data payload = JErr e ->
            JsError.isDisconnecting e = None -> JsError.deleteIsDisconnecting e = e)
    by (intros e _; apply deleteIsDisconnecting_unmarked).
  change (pendingMessages (set_pendingMessages ?r s)) with r.
  unfold onResponse, Registry.resolve, Registry.reject.
  destruct (data payload) as [| | b | z | str | e];
    (split; [by apply settle_pending|]; split; [|exact Hunmarked]).
  1-5: exact (proj2 (settle_pending id (Fulfilled _) _ Hpending)).
  rewrite <- normalizeError_cases.
  exact (proj2 (settle_pending id (RejectedWith _) _ Hpending)).
Qed.

Lemma onResponse_normalizes_witness :
  entries (pendingMessages
     (onMessage {| responseId := Some 1%N; data := JErr launchError;
                   listenerId := None; eventType := None |} requested)) !! 1%N = None
  /\ outcomes (pendingMessages
     (onMessage {| responseId := Some 1%N; data := JErr launchError;
                   listenerId := None; eventType := None |} requested)) !! 1%N
     = Some (RejectedWith (JsError.deleteIsDisconnecting launchError))
  /\ (forall e, JErr launchError = JErr e -> JsError.isDisconnecting e = None ->
        JsError.deleteIsDisconnecting e = e).
Proof.
  apply (onResponse_normalizes requested
           {| responseId := Some 1%N; data := JErr launchError;
              listenerId := None; eventType := None |} 1%N).
  - reflexivity.
  - eexists. reflexivity.
Defined.

(** C6, as stated, fails: a browser-launch error that arrives marked
    [isDisconnecting] is not delivered verbatim, the request is rejected
    with the error stripped of the mark. *)
Lemma launch_error_is_not_verbatim :
  Registry.isPending 1%N (pendingMessages requested)
  /\ outcomes (pendingMessages
       (onMessage {| responseId := Some 1%N; data := JErr launchError;
                     listenerId := None; eventType := None |} requested)) !! 1%N
     = Some (RejectedWith (JsError.deleteIsDisconnecting launchError))
  /\ JsError.deleteIsDisconnecting launchError <> launchError.
Proof.
  split; [|split].
  - eexists. reflexivity.
  - reflexivity.
  - discriminate.
Qed.

(** ** Exploring the executions of a call *)

(** A state variable becomes a state written field by field. *)
Ltac flat s := destruct s as [[? ? ?] [? ? ?] ? ? ? ? ? ? ? ? ? ? ? ?].

(** The cases of one synchronous stretch [H : run p s = _]: the run is
    evaluated, and split wherever it looks at the state or at an answer. *)
Ltac split_run H :=
  repeat (cbn in H;
    match type of H with
    | context [match ?x with _ => _ end] =>
        match goal with E : x = _ |- _ => rewrite E in H end
    | context [if ?b then _ else _] => destruct b eqn:?
    | context [match ?x with _ => _ end] => destruct x eqn:?
    | run _ _ = _ => progress unfold closeTransport in H
    end).

(** [H : outcomeIn h' a = outcomeIn h a] becomes what is known of the
    outcome of [a] in [h']. *)
Ltac known H :=
  cbn in H; autorewrite with conn in H;
  repeat match goal with
  | E : outcomeIn ?h ?a = _ |- _ =>
      lazymatch type of H with
      | _ = ?rhs => lazymatch rhs with context [outcomeIn h a] => rewrite E in H end
      end
  end;
  cbn in H; autorewrite with conn in H.

Ltac track_rely H :=
  lazymatch type of H with
  | disconnectRely _ _ _ _ =>
      let Ht := fresh "Htransport" in
      let added := fresh "added" in
      let Hl := fresh "Hlogged" in
      let Hf := fresh "Hforeign" in
      destruct H as (H & Ht & added & Hl & Hf);
      unfold leavesOutcome in H; known H; cbn in Ht, Hl; simplify_eq
  | leavesOutcome _ _ _ => unfold leavesOutcome in H; known H
  | _ => idtac
  end.

(** [H : answers s w r]: the answer a resolvable's promise gives is the
    outcome known of it. *)
Ltac known_answer H :=
  cbn in H;
  try (repeat match goal with
       | E : outcomeIn ?h ?a = _ |- _ =>
           lazymatch type of H with context [outcomeIn h a] => rewrite E in H end
       end;
       cbn in H; autorewrite with conn in H; cbn in H;
       try contradiction; simplify_eq).

(** The first step of an execution in the context, in all its cases. *)
Ltac explore :=
  match goal with
  | H : Exec _ _ _ _ _ _ |- _ =>
      let Hrun := fresh "Hrun" in
      let Hrely := fresh "Hrely" in
      let Hans := fresh "Hans" in
      let Hrest := fresh "Hrest" in
      inversion H as [? ? ? ? Hrun | ? ? ? ? ? ? ? ? ? ? Hrun Hrely Hans Hrest];
      subst; clear H;
      split_run Hrun; try discriminate Hrun;
      inversion Hrun; subst; clear Hrun;
      try match type of Hrest with Exec _ _ ?s1' _ _ _ => is_var s1'; flat s1' end;
      try track_rely Hrely;
      try known_answer Hans
  end.

Ltac solve_resolvable :=
  cbn; autorewrite with conn;
  repeat match goal with E : outcomeIn _ _ = _ |- _ => rewrite E end;
  cbn; autorewrite with conn; reflexivity.

(** A log line is in the log of a later state. *)
Ltac solve_logged :=
  repeat (cbn;
    first [ solve [apply in_or_app; right; cbn; auto]
          | match goal with
            | H : forall l, In l _ -> In l ?s |- In _ ?s => apply H
            end
          | apply in_or_app; left ]).

(** An execution along given answers, without interference. *)
Ltac resume :=
  eapply Exec_resume; [vm_compute; reflexivity | | simpl; try reflexivity; try exact I | ].

Ltac stop := apply Exec_stop; vm_compute; reflexivity.

(** ** Connection-terminated teardown *)

Lemma settleConnectHookRequest_registry (s : Conn) (id : MsgId) :
  taggedHookRequest s (connectAction s) = Some id ->
  settleConnectHookRequest s
  = Registry.settle id
      (if automatic s (connectAction s)
       then Fulfilled JNull
       else RejectedWith (DisconnectedError (host (transport s))))
      (pendingMessages s).
Proof.
  intros Htag. unfold settleConnectHookRequest. rewrite Htag.
  unfold onResponse, Registry.resolve, Registry.reject.
  destruct (automatic s (connectAction s)); simpl; [reflexivity|].
  by rewrite normalizeError_DisconnectedError.
Qed.

Lemma settleDisconnectHookRequest_registry (s : Conn) :
  settleDisconnectHookRequest s = pendingMessages s
  \/ exists id, settleDisconnectHookRequest s
                = Registry.settle id (Fulfilled JNull) (pendingMessages s).
Proof.
  unfold settleDisconnectHookRequest.
  destruct (taggedHookRequest s (disconnectAction s)) as [id|]; [right|left; done].
  by exists id.
Qed.

(** The teardown past its guard, up to its suspension. *)
Lemma run_onConnectionTerminated (s : Conn) :
  didCallConnectionTerminated s = false ->
  fst (run onConnectionTerminated s) = terminated s.
Proof.
  intros Hguard. flat s. cbn in Hguard. subst. cbn.
  match goal with |- context [if ?b then _ else _] => by destruct b end.
Qed.

(** C2: when the teardown runs while the connect action has a tagged hook
    request that is still pending, that request is settled: rejected with
    the DisconnectedError of the transport's host if the connect action is
    not automatic, resolved with [null] if it is. *)
Theorem teardown_settles_hook_request (s : Conn) (id : MsgId) :
  didCallConnectionTerminated s = false ->
  taggedHookRequest s (connectAction s) = Some id ->
  Registry.isPending id (pendingMessages s) ->
  entries (pendingMessages (fst (run onConnectionTerminated s))) !! id = None
  /\ outcomes (pendingMessages (fst (run onConnectionTerminated s))) !! id
     = Some (if automatic s (connectAction s)
             then Fulfilled JNull
             else RejectedWith (DisconnectedError (host (transport s)))).
Proof.
  intros Hguard Htag Hpending.
  rewrite run_onConnectionTerminated by exact Hguard.
  flat s. cbn in Hguard, Htag, Hpending. unfold terminated. cbn.
  match goal with
  | |- context [settleConnectHookRequest ?s0] =>
      rewrite (settleConnectHookRequest_registry s0 id Htag)
  end.
  cbn.
  match goal with
  | |- context [Registry.settle id ?o ?r] =>
      destruct (settle_pending id o r Hpending) as [Hgone Hout];
      set (r1 := Registry.settle id o r) in *
  end.
  match goal with
  | |- context [settleDisconnectHookRequest ?s1] =>
      destruct (settleDisconnectHookRequest_registry s1) as [->|[id' ->]]
  end; cbn.
  - match goal with
    | |- context [Registry.cancel ?e _] =>
        destruct (cancel_settled id e r1 Hgone) as [? Hsame]
    end.
    by rewrite Hsame.
  - destruct (settle_settled id id' (Fulfilled JNull) r1 Hgone) as [Hgone' Hsame'].
    match goal with
    | |- context [Registry.cancel ?e ?r] =>
        destruct (cancel_settled id e r Hgone') as [? Hsame]
    end.
    by rewrite Hsame, Hsame'.
Qed.

Lemma teardown_settles_hook_request_witness :
  entries (pendingMessages (fst (run onConnectionTerminated hookRequested))) !! 1%N = None
  /\ outcomes (pendingMessages (fst (run onConnectionTerminated hookRequested))) !! 1%N
     = Some (if automatic hookRequested (connectAction hookRequested)
             then Fulfilled JNull
             else RejectedWith (DisconnectedError (host (transport hookRequested)))).
Proof.
  apply (teardown_settles_hook_request hookRequested 1%N).
  - reflexivity.
  - reflexivity.
  - eexists. reflexivity.
Defined.

(** The two scenarios: a hook request of an explicit [connect()] is
    rejected by the teardown, one of an automatic connect is resolved with
    [null]. *)
Example explicit_connect_hook_request_rejected :
  automatic hookRequested (connectAction hookRequested) = false
  /\ outcomes (pendingMessages (fst (run onConnectionTerminated hookRequested))) !! 1%N
     = Some (RejectedWith (DisconnectedError "core.local:1818")).
Proof. split; reflexivity. Qed.

Example automatic_connect_hook_request_resolved :
  automatic autoHookRequested (connectAction autoHookRequested) = true
  /\ taggedHookRequest autoHookRequested (connectAction autoHookRequested) = Some 1%N
  /\ outcomes (pendingMessages (fst (run onConnectionTerminated autoHookRequested))) !! 1%N
     = Some (Fulfilled JNull).
Proof. repeat split; reflexivity. Qed.

Lemma teardown_failing_execution :
  Exec eq onConnectionTerminated connecting
    [(AfterDisconnectHook, RejectedWith boom)] tornDown (Failed boom).
Proof. resume; [reflexivity|]. stop. Qed.

(** C3, as amended: the teardown first records the disconnect, emits
    [disconnected], settles the hook requests, clears the connect action
    and cancels the pending requests, and only then awaits the
    after-disconnect hook, as its last step: at that await the controller
    is in the state [terminated], with no request pending, and after the
    answer the teardown changes nothing more.  It has at most this one
    suspension.  An error of the hook is propagated: the teardown fails,
    with that error, exactly when the hook is set and fails. *)
Theorem teardown_propagates_hook_failure (rely : Conn -> Conn -> Prop) (s s2 : Conn)
    (trace : list (Awaitable * Settled)) (out : Susp unit) :
  Exec rely onConnectionTerminated s trace s2 out ->
  (forall e, out = Failed e <-> trace = [(AfterDisconnectHook, RejectedWith e)])
  /\ (forall e, out = Failed e ->
        afterDisconnectHook (hooks s) = true /\ didCallConnectionTerminated s = false)
  /\ (trace <> [] -> out = Done tt \/ exists e, out = Failed e)
  /\ (trace = [] ->
      (didCallConnectionTerminated s = true /\ s2 = s /\ out = Done tt)
      \/ (didCallConnectionTerminated s = false
          /\ didCallConnectionTerminated s2 = true
          /\ lastDisconnectDate s2 = Some (clock s)
          /\ emitted s2 = emitted s ++ [EmitDisconnected]
          /\ connectAction s2 = None
          /\ exists k, out = Waiting (if afterDisconnectHook (hooks s)
                                      then AfterDisconnectHook else Tick) k))
  /\ (trace = [] -> didCallConnectionTerminated s = false ->
      s2 = terminated s /\ entries (pendingMessages s2) = ∅)
  /\ (forall w r, trace = [(w, r)] ->
        didCallConnectionTerminated s = false /\ rely (terminated s) s2
        /\ (w = AfterDisconnectHook /\ afterDisconnectHook (hooks s) = true
            \/ w = Tick /\ afterDisconnectHook (hooks s) = false))
  /\ (length trace <= 1)%nat.
Proof.
  intros H. flat s.
  explore; try explore; try explore.
  all: split; [intros ?; split; intros [=]; subst; reflexivity|].
  all: split; [intros ? [=]; subst; auto|].
  all: split; [intros ?; try congruence; eauto|].
  all: split;
    [intros ?; try discriminate; try (left; by auto);
     right; cbn; repeat split; eauto|].
  all: split;
    [intros Htrace Hguard;
     first [ discriminate Htrace | discriminate Hguard
           | unfold terminated; cbn; split; reflexivity ]|].
  all: split;
    [intros w' r' Htrace;
     first [ discriminate Htrace
           | simplify_eq; (split; [reflexivity|]); unfold terminated; cbn;
             (split; [assumption|]); auto ]|].
  all: cbn [length]; lia.
Qed.

Lemma teardown_propagates_hook_failure_witness :
  (forall e, @Failed unit boom = Failed e
             <-> [(AfterDisconnectHook, RejectedWith boom)]
                 = [(AfterDisconnectHook, RejectedWith e)])
  /\ afterDisconnectHook (hooks connecting) = true
  /\ didCallConnectionTerminated connecting = false
  /\ terminated connecting = tornDown.
Proof.
  destruct (teardown_propagates_hook_failure eq connecting tornDown
              [(AfterDisconnectHook, RejectedWith boom)] (Failed boom)
              teardown_failing_execution)
    as (Hiff & Hcause & _ & _ & _ & Hlast & _).
  split; [exact Hiff|].
  split; [exact (proj1 (Hcause boom eq_refl))|].
  split; [exact (proj2 (Hcause boom eq_refl))|].
  exact (proj1 (proj2 (Hlast _ _ eq_refl))).
Defined.

(** C3, as stated, fails: the teardown that the transport's [disconnected]
    event starts throws outward the error its after-disconnect hook threw. *)
Lemma teardown_throws_outward :
  afterDisconnectHook (hooks connecting) = true
  /\ Exec eq onConnectionTerminated connecting
       [(AfterDisconnectHook, RejectedWith boom)] tornDown (Failed boom).
Proof. split; [reflexivity | exact teardown_failing_execution]. Qed.

(** ** sendRequest *)

(** C7: when the awaited outcome of a [sendRequest] call fails, in whatever
    state [s'] the controller is by then, the pending entry is removed from
    the registry; the call resolves with [undefined] if a disconnect action
    is present and the failure is a cancellation error, and otherwise
    rejects with that failure. *)
Theorem sendRequest_failure (rely : Conn -> Conn -> Prop) (s s1 s' : Conn)
    (payload : RequestPayload) (timeout : option Z)
    (trace : list (Awaitable * Settled)) (id : MsgId) (k : Settled -> Prog JsValue)
    (error : Error) :
  Exec rely (sendRequest payload timeout) s trace s1 (Waiting (ResponseAndSend id) k) ->
  Registry.isPending id (pendingMessages s1)
  /\ entries (pendingMessages (fst (run (k (RejectedWith error)) s'))) !! id = None
  /\ snd (run (k (RejectedWith error)) s')
     = if present (disconnectAction s') && JsError.canceled error
       then Done JUndefined else Failed error.
Proof.
  intros H. flat s. flat s'.
  explore; try explore; try explore; try explore; try explore; try explore;
    try explore.
  all: split; [eexists; cbn; apply lookup_insert_eq|].
  all: cbn; match goal with |- context [if ?b then _ else _] => destruct b end; cbn.
  all: unfold Registry.delete; cbn.
  all: split; [apply lookup_delete_eq | reflexivity].
Qed.

Lemma sendRequest_failure_witness :
  Registry.isPending 1%N (pendingMessages requested)
  /\ entries (pendingMessages
               (fst (run (requestContinuation
                            (RejectedWith (DisconnectedError "core.local:1818")))
                       requestedAndDisconnecting))) !! 1%N = None
  /\ snd (run (requestContinuation (RejectedWith (DisconnectedError "core.local:1818")))
            requestedAndDisconnecting)
     = if present (disconnectAction requestedAndDisconnecting)
          && JsError.canceled (DisconnectedError "core.local:1818")
       then Done JUndefined else Failed (DisconnectedError "core.local:1818").
Proof.
  apply (sendRequest_failure eq connecting requested requestedAndDisconnecting
           ping None [] 1%N requestContinuation (DisconnectedError "core.local:1818")).
  stop.
Defined.

(** The cases of C7 on the request of [requested]: swallowed during a
    disconnect, thrown without one, and a failure that is no cancellation
    thrown even during a disconnect. *)
Example cancellation_swallowed_during_disconnect :
  snd (run (requestContinuation (RejectedWith (DisconnectedError "core.local:1818")))
         requestedAndDisconnecting) = Done JUndefined.
Proof. vm_compute. reflexivity. Qed.

Example cancellation_thrown_without_disconnect :
  snd (run (requestContinuation (RejectedWith (DisconnectedError "core.local:1818")))
         requested) = Failed (DisconnectedError "core.local:1818").
Proof. vm_compute. reflexivity. Qed.

Example other_failure_thrown_during_disconnect :
  snd (run (requestContinuation (RejectedWith boom)) requestedAndDisconnecting)
  = Failed boom.
Proof. vm_compute. reflexivity. Qed.

(** ** connect *)







(** The scenario of C8: after the failed attempt the field is cleared, the
    action 0 is rejected, and the next [connect()] makes the action 1 and
    calls the transport a second time. *)
Example connect_again_after_failure :
  connectAction (fst connectFailed) = None
  /\ outcomeOf (fst connectFailed) 0 = RRejected boom
  /\ connectAction (fst (run (connect noOptions) (fst connectFailed))) = Some 1%nat
  /\ transportCalls (fst (run (connect noOptions) (fst connectFailed)))
     = [CallConnect None; CallConnect None].
Proof. repeat split; vm_compute; reflexivity. Qed.

(** ** disconnect *)

(** The cases of [H : In l log] for a log that is written as what was
    appended to it. *)
Ltac log_cases :=
  repeat match goal with
  | H : In _ (_ ++ _) |- _ => apply in_app_or in H; destruct H as [H|H]
  | H : In _ (_ :: _) |- _ => destruct H as [H|H]
  | H : In _ [] |- _ => destruct H
  end.

(** C4, as amended: in every execution of a [disconnect()] that starts a
    disconnect action, the outcome of that action is never rejected and
    is resolved, by the finalizer, as soon as the body has ended: when the
    call has returned, thrown or is at its [return], and at the latest
    after four awaited answers; the call is over after five.  A failure of
    the before-disconnect hook is logged and goes no further.  The call
    itself fails exactly with the error that the transport's [disconnect]
    threw or with which the after-disconnect hook of the teardown failed:
    if the transport's [disconnect] throws, the call has failed with that
    error after two answers, and if the after-disconnect hook fails, after
    four; in neither case it returns.  Of these failures nothing is
    logged: the call writes no lines but the two of its progress and the
    errors of the before-disconnect hook. *)
Theorem disconnect_resolves_its_action (foreign : LogLine -> Prop) (s s2 : Conn)
    (fatalError : option Error) (trace : list (Awaitable * Settled)) (out : Susp unit) :
  disconnectAction s = None ->
  Exec (disconnectRely foreign (length (heap s))) (disconnect fatalError) s trace s2 out ->
  (resolvableAt s2 (length (heap s)) = Some RPending
   \/ resolvableAt s2 (length (heap s)) = Some RResolved)
  /\ (out = Done tt \/ (exists e, out = Failed e)
      \/ (exists k, out = Waiting (ResolvablePromise (length (heap s))) k)
      \/ (4 <= length trace)%nat ->
      resolvableAt s2 (length (heap s)) = Some RResolved)
  /\ ((5 <= length trace)%nat -> out = Done tt \/ exists e, out = Failed e)
  /\ (forall e, In (BeforeDisconnectFn (length (heap s)), RejectedWith e) trace ->
        In (LogError "Error in beforeDisconnect hook" e) (logged s2))
  /\ (forall e, out = Failed e ->
        disconnectFn (transport s) = Some (Some e)
        \/ In (AfterDisconnectHook, RejectedWith e) trace)
  /\ (forall e, disconnectFn (transport s) = Some (Some e) ->
        out <> Done tt
        /\ (length trace <= 2)%nat
        /\ ((2 <= length trace)%nat -> out = Failed e))
  /\ (forall e, In (AfterDisconnectHook, RejectedWith e) trace ->
        out <> Done tt
        /\ (length trace <= 4)%nat
        /\ ((4 <= length trace)%nat -> out = Failed e))
  /\ (forall l, In l (logged s2) ->
        In l (logged s) \/ foreign l
        \/ l = LogStats "ConnectionToCore.Disconnecting"
        \/ l = LogStats "ConnectionToCore.Disconnected"
        \/ exists e, l = LogError "Error in beforeDisconnect hook" e
                     /\ In (BeforeDisconnectFn (length (heap s)), RejectedWith e) trace).
Proof.
  intros Hnone H. flat s. cbn in Hnone, H |- *. subst.
  explore; try explore; try explore; try explore; try explore;
    try explore; try explore.
  all: split; [solve [left; solve_resolvable | right; solve_resolvable] |].
  all: split;
    [intros Hleft;
     first [ solve_resolvable
           | exfalso; destruct Hleft as [Hl|[[? Hl]|[[? Hl]|Hl]]];
             [discriminate Hl | discriminate Hl | discriminate Hl | cbn in Hl; lia] ]|].
  all: split;
    [intros Hlen; cbn in Hlen;
     first [ lia | left; reflexivity | right; eexists; reflexivity ]|].
  all: split;
    [intros e' Hin; cbn in Hin;
     repeat match goal with
            | H : _ \/ _ |- _ => destruct H
            | H : False |- _ => destruct H
            end;
     try discriminate; simplify_eq; solve_logged|].
  all: split;
    [intros e' Heq; try discriminate Heq; inversion Heq; subst;
     first [ left; reflexivity | right; cbn; tauto ]|].
  all: split;
    [intros e' Hthrows; try discriminate Hthrows; simplify_eq;
     (split; [discriminate|]); cbn [length];
     (split; [lia|]); intros Hlen; first [lia | reflexivity]|].
  all: split;
    [intros e' Hin; cbn in Hin;
     repeat match goal with
            | H : _ \/ _ |- _ => destruct H
            | H : False |- _ => destruct H
            end;
     try discriminate; simplify_eq;
     (split; [discriminate|]); cbn [length];
     (split; [lia|]); intros Hlen; first [lia | reflexivity]|].
  all: intros l Hin; cbn in Hin; log_cases.
  all: first
    [ left; assumption
    | right; left;
      match goal with
      | Hf : Forall ?f ?added, Hl : In ?x ?added |- _ =>
          exact (proj1 (List.Forall_forall f added) Hf x Hl)
      end
    | subst; right; right; left; reflexivity
    | subst; right; right; right; left; reflexivity
    | subst; right; right; right; right; eexists; split; [reflexivity|];
      cbn; auto 10 ].
Qed.

Lemma disconnect_failing_execution :
  Exec (disconnectRely (fun _ => False) 1) (disconnect None) connecting
    failingDisconnectTrace (fst disconnectFailed) (snd disconnectFailed).
Proof.
  unfold failingDisconnectTrace.
  resume; [apply disconnectRely_refl|].
  resume; [apply disconnectRely_refl|].
  resume; [apply disconnectRely_refl|].
  resume; [apply disconnectRely_refl|].
  stop.
Qed.

Lemma disconnect_resolves_its_action_witness :
  resolvableAt (fst disconnectFailed) 1 = Some RResolved
  /\ snd disconnectFailed = Failed boom
  /\ (forall l, In l (logged (fst disconnectFailed)) ->
        l = LogStats "ConnectionToCore.Disconnecting"
        \/ l = LogStats "ConnectionToCore.Disconnected").
Proof.
  destruct (disconnect_resolves_its_action (fun _ => False) connecting
              (fst disconnectFailed) None failingDisconnectTrace (snd disconnectFailed)
              eq_refl disconnect_failing_execution)
    as (_ & Hresolved & _ & _ & _ & _ & Hteardown & Hlog).
  split; [apply Hresolved; do 3 right; cbn; lia|].
  split.
  - apply (Hteardown boom); [|cbn; lia]. cbn. auto.
  - intros l Hin.
    destruct (Hlog l Hin) as [[]|[[]|[?|[?|(e & _ & Hhook)]]]]; auto.
    cbn in Hhook.
    repeat match goal with
           | H : _ \/ _ |- _ => destruct H
           | H : False |- _ => destruct H
           end; discriminate.
Defined.

(** C4, as stated, fails: when the after-disconnect hook of the teardown
    throws, the [disconnect()] call rejects with that error, although the
    outcome of its action is resolved, and nothing of the failure is
    logged. *)
Lemma disconnect_rejects_its_caller :
  Exec (disconnectRely (fun _ => False) 1) (disconnect None) connecting
    failingDisconnectTrace (fst disconnectFailed) (snd disconnectFailed)
  /\ snd disconnectFailed = Failed boom
  /\ outcomeOf (fst disconnectFailed) 1 = RResolved
  /\ logged (fst disconnectFailed) = [LogStats "ConnectionToCore.Disconnecting"].
Proof.
  split; [exact disconnect_failing_execution|].
  repeat split; vm_compute; reflexivity.
Qed.

(** ** More on the registry *)

Lemma settle_other (id id' : MsgId) (o : Settled) (r : PendingMessages) :
  id <> id' ->
  entries (Registry.settle id' o r) !! id = entries r !! id.
Proof.
  intros Hne. unfold Registry.settle.
  destruct (entries r !! id'); simpl; [|done].
  by rewrite lookup_delete_ne.
Qed.

Lemma cancel_pending (id : MsgId) (e : Error) (r : PendingMessages) :
  Registry.isPending id r ->
  outcomes (Registry.cancel e r) !! id = Some (RejectedWith e).
Proof.
  intros [x Hx]. unfold Registry.cancel. simpl.
  apply lookup_union_Some_l. by rewrite lookup_fmap, Hx.
Qed.

Lemma onResponse_settles (id : MsgId) (d : JsValue) (s : Conn) :
  exists o, onResponse id d s = Registry.settle id o (pendingMessages s).
Proof. destruct d; eexists; reflexivity. Qed.

Lemma settleConnectHookRequest_other (s : Conn) (id : MsgId) :
  taggedHookRequest s (connectAction s) <> Some id ->
  entries (settleConnectHookRequest s) !! id = entries (pendingMessages s) !! id.
Proof.
  intros Hne. unfold settleConnectHookRequest.
  destruct (taggedHookRequest s (connectAction s)) as [hookId|]; [|done].
  destruct (onResponse_settles hookId
              (if negb (automatic s (connectAction s))
               then JErr (DisconnectedError (host (transport s))) else JNull) s) as [o ->].
  apply settle_other. congruence.
Qed.

Lemma settleDisconnectHookRequest_other (s : Conn) (id : MsgId) :
  taggedHookRequest s (disconnectAction s) <> Some id ->
  entries (settleDisconnectHookRequest s) !! id = entries (pendingMessages s) !! id.
Proof.
  intros Hne. unfold settleDisconnectHookRequest.
  destruct (taggedHookRequest s (disconnectAction s)) as [hookId|]; [|done].
  destruct (onResponse_settles hookId JNull s) as [o ->].
  apply settle_other. congruence.
Qed.

Lemma settle_accountedFor (id id' : MsgId) (o : Settled) (r : PendingMessages) :
  accountedFor id r -> accountedFor id (Registry.settle id' o r).
Proof.
  unfold accountedFor, Registry.isPending, Registry.settle.
  destruct (entries r !! id') eqn:Hentry; simpl; [|done].
  destruct (decide (id = id')) as [->|Hne].
  - intros _. right. rewrite lookup_insert_eq. by eexists.
  - rewrite lookup_delete_ne, lookup_insert_ne by done. done.
Qed.

Lemma cancel_accountedFor (id : MsgId) (e : Error) (r : PendingMessages) :
  accountedFor id r -> is_Some (outcomes (Registry.cancel e r) !! id).
Proof.
  intros [Hpending|[o Ho]].
  - rewrite (cancel_pending id e r Hpending). by eexists.
  - unfold Registry.cancel. simpl.
    destruct (entries r !! id) eqn:Hentry.
    + erewrite lookup_union_Some_l; [by eexists|]. by rewrite lookup_fmap, Hentry.
    + rewrite lookup_union_r by (by rewrite lookup_fmap, Hentry). by eexists.
Qed.

(** ** More on the teardown *)

(** The teardown runs once per connection: run again on the state it
    left, it does nothing. *)
Theorem teardown_runs_once (s : Conn) :
  run onConnectionTerminated (fst (run onConnectionTerminated s))
  = (fst (run onConnectionTerminated s), Done tt).
Proof.
  destruct (didCallConnectionTerminated s) eqn:Hguard;
    destruct (afterDisconnectHook (hooks s)) eqn:Hhook;
    flat s; cbn in Hguard, Hhook; subst; cbn; reflexivity.
Qed.

(** The teardown leaves no request pending: the registry is empty, every
    request that was pending has an outcome, and one that is not the
    tagged request of a hook is rejected with the DisconnectedError of the
    transport's host. *)
Theorem teardown_cancels_every_request (s : Conn) (id : MsgId) :
  didCallConnectionTerminated s = false ->
  Registry.isPending id (pendingMessages s) ->
  entries (pendingMessages (fst (run onConnectionTerminated s))) = ∅
  /\ is_Some (outcomes (pendingMessages (fst (run onConnectionTerminated s))) !! id)
  /\ (taggedHookRequest s (connectAction s) <> Some id ->
      taggedHookRequest s (disconnectAction s) <> Some id ->
      outcomes (pendingMessages (fst (run onConnectionTerminated s))) !! id
      = Some (RejectedWith (DisconnectedError (host (transport s))))).
Proof.
  intros Hguard Hpending.
  rewrite run_onConnectionTerminated by exact Hguard.
  destruct s as [[th tc td] [ha hb hd] mi ca da ar pm dc ld hp ck em cl lg].
  cbn in Hguard, Hpending |- *. unfold terminated. cbn.
  split; [reflexivity|]. split.
  - apply cancel_accountedFor.
    match goal with
    | |- context [settleDisconnectHookRequest ?s1] =>
        unfold settleDisconnectHookRequest at 1;
        destruct (taggedHookRequest s1 (disconnectAction s1)) as [hookId|]
    end; cbn.
    + match goal with
      | |- context [onResponse hookId JNull ?s1] =>
          destruct (onResponse_settles hookId JNull s1) as [o ->]
      end.
      apply settle_accountedFor. cbn.
      match goal with
      | |- context [settleConnectHookRequest ?s0] =>
          unfold settleConnectHookRequest;
          destruct (taggedHookRequest s0 (connectAction s0)) as [hookId'|]
      end; [|by left].
      match goal with
      | |- context [onResponse hookId' ?d ?s0] =>
          destruct (onResponse_settles hookId' d s0) as [o' ->]
      end.
      apply settle_accountedFor. by left.
    + match goal with
      | |- context [settleConnectHookRequest ?s0] =>
          unfold settleConnectHookRequest;
          destruct (taggedHookRequest s0 (connectAction s0)) as [hookId'|]
      end; [|by left].
      match goal with
      | |- context [onResponse hookId' ?d ?s0] =>
          destruct (onResponse_settles hookId' d s0) as [o' ->]
      end.
      apply settle_accountedFor. by left.
  - intros Hconnect Hdisconnect.
    apply cancel_pending. unfold Registry.isPending.
    rewrite settleDisconnectHookRequest_other by exact Hdisconnect. cbn.
    rewrite settleConnectHookRequest_other by exact Hconnect. cbn.
    exact Hpending.
Qed.

Lemma teardown_cancels_every_request_witness :
  entries (pendingMessages (fst (run onConnectionTerminated requested))) = ∅
  /\ is_Some (outcomes (pendingMessages (fst (run onConnectionTerminated requested))) !! 1%N)
  /\ (taggedHookRequest requested (connectAction requested) <> Some 1%N ->
      taggedHookRequest requested (disconnectAction requested) <> Some 1%N ->
      outcomes (pendingMessages (fst (run onConnectionTerminated requested))) !! 1%N
      = Some (RejectedWith (DisconnectedError (host (transport requested))))).
Proof.
  apply (teardown_cancels_every_request requested 1%N).
  - reflexivity.
  - eexists. reflexivity.
Defined.

(** After the teardown, auto-connect waits for the minimum interval: with
    the clock at [now] it is allowed exactly when auto-reconnect is on, no
    hook request of a disconnect is in flight, and the interval is a number
    of milliseconds that have passed since the teardown. *)
Theorem teardown_debounces_auto_connect (s : Conn) (now : Z) :
  didCallConnectionTerminated s = false ->
  shouldAutoConnect (set_clock now (fst (run onConnectionTerminated s)))
  = autoReconnect s
    && negb (present (taggedHookRequest s (disconnectAction s)))
    && match MinimumAutoReconnectMillis s with
       | NaN => false
       | Num reconnectMillis => (reconnectMillis <=? now - clock s)%Z
       end.
Proof.
  intros Hguard.
  rewrite run_onConnectionTerminated by exact Hguard.
  unfold shouldAutoConnect.
  change (taggedHookRequest (set_clock now (terminated s))
            (disconnectAction (set_clock now (terminated s))))
    with (taggedHookRequest s (disconnectAction s)).
  change (autoReconnect (set_clock now (terminated s))) with (autoReconnect s).
  change (connectAction (set_clock now (terminated s))) with (@None ActionRef).
  change (lastDisconnectDate (set_clock now (terminated s))) with (Some (clock s)).
  change (MinimumAutoReconnectMillis (set_clock now (terminated s)))
    with (MinimumAutoReconnectMillis s).
  change (clock (set_clock now (terminated s))) with now.
  destruct (autoReconnect s); [|reflexivity].
  destruct (taggedHookRequest s (disconnectAction s)); reflexivity.
Qed.

Lemma teardown_debounces_auto_connect_witness :
  shouldAutoConnect (set_clock 999 (fst (run onConnectionTerminated connecting))) = false
  /\ shouldAutoConnect (set_clock 1000 (fst (run onConnectionTerminated connecting))) = true.
Proof.
  split.
  - rewrite (teardown_debounces_auto_connect connecting 999); reflexivity.
  - rewrite (teardown_debounces_auto_connect connecting 1000); reflexivity.
Defined.

(** When the teardown runs while the disconnect action has a tagged hook
    request that is still pending and is not the connect action's as well,
    that request is resolved with [null]. *)
Theorem teardown_resolves_disconnect_hook_request (s : Conn) (id : MsgId) :
  didCallConnectionTerminated s = false ->
  taggedHookRequest s (disconnectAction s) = Some id ->
  taggedHookRequest s (connectAction s) <> Some id ->
  Registry.isPending id (pendingMessages s) ->
  entries (pendingMessages (fst (run onConnectionTerminated s))) !! id = None
  /\ outcomes (pendingMessages (fst (run onConnectionTerminated s))) !! id
     = Some (Fulfilled JNull).
Proof.
  intros Hguard Htag Hconnect Hpending.
  rewrite run_onConnectionTerminated by exact Hguard.
  destruct s as [[th tc td] [ha hb hd] mi ca da ar pm dc ld hp ck em cl lg].
  cbn in Hguard, Htag, Hconnect, Hpending. unfold terminated. cbn.
  match goal with
  | |- context [settleDisconnectHookRequest ?s1] =>
      assert (Registry.isPending id (pendingMessages s1)) as Hpending1
        by (unfold Registry.isPending; cbn;
            rewrite settleConnectHookRequest_other by exact Hconnect; exact Hpending);
      unfold settleDisconnectHookRequest;
      assert (taggedHookRequest s1 (disconnectAction s1) = Some id) as ->
        by exact Htag;
      cbn in Hpending1 |- *
  end.
  unfold onResponse, Registry.resolve.
  match goal with
  | |- context [Registry.settle id ?o ?r] =>
      destruct (settle_pending id o r Hpending1) as [Hgone Hout];
      set (r1 := Registry.settle id o r) in *
  end.
  match goal with
  | |- context [Registry.cancel ?e _] =>
      destruct (cancel_settled id e r1 Hgone) as [? Hsame]
  end.
  by rewrite Hsame.
Qed.

Lemma teardown_resolves_disconnect_hook_request_witness :
  entries (pendingMessages (fst (run onConnectionTerminated disconnectHookRequested)))
    !! 1%N = None
  /\ outcomes (pendingMessages (fst (run onConnectionTerminated disconnectHookRequested)))
       !! 1%N = Some (Fulfilled JNull).
Proof.
  apply (teardown_resolves_disconnect_hook_request disconnectHookRequested 1%N).
  - reflexivity.
  - vm_compute. reflexivity.
  - vm_compute. discriminate.
  - eexists. vm_compute. reflexivity.
Defined.

(** ** More on disconnect *)

(** A [disconnect()] that starts a disconnect action switches
    auto-reconnect off, records the fatal error in the action, cancels
    every pending request with the DisconnectedError of the transport's
    host, and is then in its before-disconnect hook, with [isCallingHook]
    set on the action, whether a hook function is set or not. *)
Theorem disconnect_cancels_pending (s : Conn) (fatalError : option Error) :
  disconnectAction s = None ->
  autoReconnect (fst (run (disconnect fatalError) s)) = false
  /\ disconnectAction (fst (run (disconnect fatalError) s)) = Some (length (heap s))
  /\ error <$> deref (fst (run (disconnect fatalError) s)) (length (heap s))
     = Some fatalError
  /\ callingHook (fst (run (disconnect fatalError) s)) (Some (length (heap s))) = true
  /\ entries (pendingMessages (fst (run (disconnect fatalError) s))) = ∅
  /\ (forall id, Registry.isPending id (pendingMessages s) ->
        outcomes (pendingMessages (fst (run (disconnect fatalError) s))) !! id
        = Some (RejectedWith (DisconnectedError (host (transport s)))))
  /\ exists k, snd (run (disconnect fatalError) s)
               = Waiting (if beforeDisconnectFn (hooks s)
                          then BeforeDisconnectFn (length (heap s)) else Tick) k.
Proof.
  intros Hnone. flat s. cbn in Hnone. subst. cbn.
  match goal with |- context [if ?b then _ else _] => destruct b end; cbn.
  all: unfold callingHook, truthy, deref; cbn.
  all: rewrite list_lookup_alter_eq, list_lookup_middle by reflexivity; cbn.
  all: repeat split; eauto using cancel_pending.
Qed.

Lemma disconnect_cancels_pending_witness :
  autoReconnect (fst (run (disconnect None) requested)) = false
  /\ disconnectAction (fst (run (disconnect None) requested))
     = Some (length (heap requested))
  /\ error <$> deref (fst (run (disconnect None) requested)) (length (heap requested))
     = Some None
  /\ callingHook (fst (run (disconnect None) requested))
       (Some (length (heap requested))) = true
  /\ entries (pendingMessages (fst (run (disconnect None) requested))) = ∅
  /\ (forall id, Registry.isPending id (pendingMessages requested) ->
        outcomes (pendingMessages (fst (run (disconnect None) requested))) !! id
        = Some (RejectedWith (DisconnectedError (host (transport requested)))))
  /\ exists k, snd (run (disconnect None) requested)
               = Waiting (if beforeDisconnectFn (hooks requested)
                          then BeforeDisconnectFn (length (heap requested)) else Tick) k.
Proof.
  apply (disconnect_cancels_pending requested None). reflexivity.
Defined.

(** After any call of [disconnect()], wherever it stands, a request does
    not connect automatically. *)
Theorem disconnect_disables_auto_connect (s : Conn) (fatalError : option Error) :
  shouldAutoConnect (fst (run (disconnect fatalError) s)) = false.
Proof.
  assert (autoReconnect (fst (run (disconnect fatalError) s)) = false) as Hoff.
  { destruct (disconnectAction s) eqn:Hlive;
      destruct (beforeDisconnectFn (hooks s)) eqn:Hhook;
      flat s; cbn in Hlive, Hhook; subst; cbn; reflexivity. }
  unfold shouldAutoConnect. by rewrite Hoff.
Qed.

(** A [disconnect(fatalError)] call that joins a live disconnect action
    drops its argument: the call does the same whatever the error is, and
    no action is changed. *)
Theorem disconnect_join_ignores_fatalError (s : Conn) (live : ActionRef)
    (fatalError fatalError' : option Error) :
  disconnectAction s = Some live ->
  run (disconnect fatalError) s = run (disconnect fatalError') s
  /\ heap (fst (run (disconnect fatalError) s)) = heap s.
Proof.
  intros Hlive. flat s. cbn in Hlive. subst. cbn. split; reflexivity.
Qed.

Lemma disconnect_join_ignores_fatalError_witness :
  run (disconnect (Some boom)) connectingAndDisconnecting
  = run (disconnect None) connectingAndDisconnecting
  /\ heap (fst (run (disconnect (Some boom)) connectingAndDisconnecting))
     = heap connectingAndDisconnecting.
Proof.
  apply (disconnect_join_ignores_fatalError connectingAndDisconnecting 1%nat).
  reflexivity.
Defined.

(** ** More on the normalization of errors *)

(** The error handed to the registry never has an [isDisconnecting]
    property, and normalizing is idempotent: an error that went through
    [onResponse] once is delivered as it is when it goes through again. *)
Theorem normalizeError_idempotent (s : Conn) (e : Error) :
  JsError.isDisconnecting (normalizeError s e) = None
  /\ normalizeError s (normalizeError s e) = normalizeError s e.
Proof.
  rewrite (normalizeError_cases s e).
  destruct (isBrowserLaunchError e) eqn:Hlaunch.
  - split; [reflexivity|].
    rewrite normalizeError_cases.
    change (isBrowserLaunchError (JsError.deleteIsDisconnecting e))
      with (isBrowserLaunchError e).
    by rewrite Hlaunch.
  - destruct (present (disconnectAction s)) eqn:Hdisconnect; simpl.
    + split; [reflexivity|].
      rewrite normalizeError_cases, Hdisconnect. reflexivity.
    + destruct (String.eqb (JsError.name e) SessionClosedOrMissingError_name) eqn:Hname;
        simpl.
      * split; [reflexivity|].
        rewrite normalizeError_cases, Hdisconnect. reflexivity.
      * destruct (bool_decide (JsError.isDisconnecting e = Some true)); simpl.
        -- split; [reflexivity|].
           rewrite normalizeError_cases, Hdisconnect. reflexivity.
        -- split; [reflexivity|].
           rewrite normalizeError_cases, Hdisconnect.
           change (isBrowserLaunchError (JsError.deleteIsDisconnecting e))
             with (isBrowserLaunchError e).
           rewrite Hlaunch. simpl. by rewrite Hname.
Qed.

(** ** More on inbound routing *)

(** A message with a [responseId] is a response and emits no event, also
    when it has a [listenerId] or an [eventType]; a message without one
    leaves the registry alone, and emits one [event] if it has one of the
    two other keys. *)
Theorem onMessage_routing (s : Conn) (payload : InboundPayload) :
  (forall id, responseId payload = Some id ->
     emitted (onMessage payload s) = emitted s
     /\ pendingMessages (onMessage payload s) = onResponse id (data payload) s)
  /\ (responseId payload = None ->
      pendingMessages (onMessage payload s) = pendingMessages s
      /\ emitted (onMessage payload s)
         = emitted s ++ (if present (listenerId payload) || present (eventType payload)
                         then [EmitEvent payload] else [])).
Proof.
  unfold onMessage. split.
  - intros id ->. split; reflexivity.
  - intros ->. destruct (present _ || present _); simpl.
    + split; reflexivity.
    + by rewrite app_nil_r.
Qed.

(** ** The hooks *)

Lemma callingHook_cleared (a : ActionRef) (h : list IConnectAction) (s : Conn) :
  heap s = alter (set_isCallingHook false) a h ->
  callingHook s (Some a) = false.
Proof.
  intros Hheap. unfold callingHook, truthy, deref. rewrite Hheap.
  rewrite list_lookup_alter_eq. by destruct (h !! a).
Qed.

(** [afterConnectHook] does nothing when a disconnect action is present,
    when there is no connect action, or when the connect action is settled
    already.  Otherwise it sets [isCallingHook] on the connect action and
    awaits the hook function (a tick, if none is set); it has ended after
    that one answer, with [isCallingHook] cleared however the hook ended,
    and a failure of the hook is thrown on. *)
Theorem afterConnectHook_clears_flag (rely : Conn -> Conn -> Prop) (s s2 : Conn)
    (trace : list (Awaitable * Settled)) (out : Susp unit) :
  Exec rely afterConnectHook s trace s2 out ->
  (length trace <= 1)%nat
  /\ (present (disconnectAction s) = true \/ connectAction s = None
      \/ (exists a, connectAction s = Some a /\ isResolved (outcomeOf s a) = true) ->
      trace = [] /\ s2 = s /\ out = Done tt)
  /\ (forall a, present (disconnectAction s) = false -> connectAction s = Some a ->
        isResolved (outcomeOf s a) = false ->
        (trace = [] ->
           s2 = mutate a (set_isCallingHook true) s
           /\ exists k, out = Waiting (if afterConnectFn (hooks s)
                                       then AfterConnectFn a else Tick) k)
        /\ (forall w r, trace = [(w, r)] ->
              callingHook s2 (Some a) = false
              /\ out = match r with
                       | Fulfilled _ => Done tt
                       | RejectedWith e => Failed e
                       end)).
Proof.
  intros H. flat s.
  explore; try explore; try explore.
  all: cbn [length]; (split; [lia|]).
  all: split;
    [intros [Hskip|[Hskip|[a' [Hskip Hskip']]]]; cbn in *;
     solve [congruence | simplify_eq; congruence | simplify_eq; auto]|].
  all: intros a' Hdisconnect Hconnect Hpending; cbn in Hdisconnect, Hconnect, Hpending;
    try congruence; simplify_eq; try congruence.
  all: split; [intros Htrace; try discriminate Htrace; eauto|].
  all: intros w' r' Htrace; try discriminate Htrace; simplify_eq.
  all: split; [eapply callingHook_cleared; reflexivity | reflexivity].
Qed.

Lemma afterConnectHook_clears_flag_witness :
  callingHook
    (fst (resumeWith (RejectedWith boom) (run afterConnectHook connecting)))
    (Some 0%nat) = false
  /\ snd (resumeWith (RejectedWith boom) (run afterConnectHook connecting))
     = Failed boom.
Proof.
  assert (Exec eq afterConnectHook connecting [(AfterConnectFn 0, RejectedWith boom)]
            (fst (resumeWith (RejectedWith boom) (run afterConnectHook connecting)))
            (snd (resumeWith (RejectedWith boom) (run afterConnectHook connecting))))
    as Hexec by (resume; [reflexivity|]; stop).
  destruct (afterConnectHook_clears_flag eq _ _ _ _ Hexec) as (_ & _ & Hrun).
  destruct (Hrun 0%nat eq_refl eq_refl eq_refl) as [_ Hended].
  exact (Hended _ _ eq_refl).
Defined.

(** [beforeDisconnectHook] never throws: without a disconnect action it
    does nothing; otherwise it awaits the hook function (a tick, if none is
    set) with [isCallingHook] set on the disconnect action, and has
    returned after that one answer with [isCallingHook] cleared; an error
    of the hook function is the last line of the log. *)
Theorem beforeDisconnectHook_never_throws (rely : Conn -> Conn -> Prop) (s s2 : Conn)
    (trace : list (Awaitable * Settled)) (out : Susp unit) :
  Exec rely beforeDisconnectHook s trace s2 out ->
  (forall e, out <> Failed e)
  /\ (length trace <= 1)%nat
  /\ (disconnectAction s = None -> trace = [] /\ s2 = s /\ out = Done tt)
  /\ (forall a, disconnectAction s = Some a ->
        (trace = [] ->
           s2 = mutate a (set_isCallingHook true) s
           /\ exists k, out = Waiting (if beforeDisconnectFn (hooks s)
                                       then BeforeDisconnectFn a else Tick) k)
        /\ (forall w r, trace = [(w, r)] ->
              out = Done tt
              /\ callingHook s2 (Some a) = false
              /\ forall e, r = RejectedWith e ->
                   exists l, logged s2
                             = l ++ [LogError "Error in beforeDisconnect hook" e])).
Proof.
  intros H. flat s.
  explore; try explore; try explore.
  all: split; [intros e' Heq; discriminate Heq|].
  all: cbn [length]; (split; [lia|]).
  all: split; [intros Hnone; cbn in Hnone; try discriminate Hnone; auto|].
  all: intros a' Hlive; cbn in Hlive; try discriminate Hlive; simplify_eq.
  all: split; [intros Htrace; try discriminate Htrace; eauto|].
  all: intros w' r' Htrace; try discriminate Htrace; simplify_eq.
  all: split; [reflexivity|].
  all: split; [eapply callingHook_cleared; reflexivity|].
  all: intros e' Heq; try discriminate Heq; simplify_eq; cbn; eauto.
Qed.

Lemma beforeDisconnectHook_never_throws_witness :
  snd (resumeWith (RejectedWith boom)
         (run beforeDisconnectHook connectingAndDisconnecting)) = Done tt
  /\ exists l,
       logged (fst (resumeWith (RejectedWith boom)
                      (run beforeDisconnectHook connectingAndDisconnecting)))
       = l ++ [LogError "Error in beforeDisconnect hook" boom].
Proof.
  assert (Exec eq beforeDisconnectHook connectingAndDisconnecting
            [(BeforeDisconnectFn 1, RejectedWith boom)]
            (fst (resumeWith (RejectedWith boom)
                    (run beforeDisconnectHook connectingAndDisconnecting)))
            (snd (resumeWith (RejectedWith boom)
                    (run beforeDisconnectHook connectingAndDisconnecting))))
    as Hexec by (resume; [reflexivity|]; stop).
  destruct (beforeDisconnectHook_never_throws eq _ _ _ _ Hexec) as (_ & _ & _ & Hrun).
  destruct (Hrun 1%nat eq_refl) as [_ Hended].
  destruct (Hended _ _ eq_refl) as (Hout & _ & Hlog).
  split; [exact Hout | exact (Hlog boom eq_refl)].
Defined.

(** ** More on sendRequest *)

Lemma onResponse_value (id : MsgId) (v : JsValue) (s : Conn) :
  (forall e, v <> JErr e) ->
  Registry.isPending id (pendingMessages s) ->
  outcomes (onResponse id v s) !! id = Some (Fulfilled v)
  /\ entries (onResponse id v s) !! id = None.
Proof.
  intros Hvalue Hpending. unfold onResponse, Registry.resolve.
  destruct v as [| | b | z | str | e].
  6: by destruct (Hvalue e).
  all: split; apply settle_pending; exact Hpending.
Qed.

(** The round trip of a request: wherever a [sendRequest] call awaits the
    response to its message [id], the arrival of a response with that id
    and a payload [v] that is no error takes the request out of the
    registry and fulfils the awaited outcome with [v]; the call then
    returns [v] and leaves the registry as it is. *)
Theorem sendRequest_delivers_response (rely : Conn -> Conn -> Prop) (s s1 s' : Conn)
    (payload : RequestPayload) (timeout : option Z)
    (trace : list (Awaitable * Settled)) (id : MsgId) (k : Settled -> Prog JsValue)
    (v : JsValue) (listener event : option string) :
  Exec rely (sendRequest payload timeout) s trace s1 (Waiting (ResponseAndSend id) k) ->
  (forall e, v <> JErr e) ->
  answers (onMessage {| responseId := Some id; data := v; listenerId := listener;
                        eventType := event |} s1)
    (ResponseAndSend id) (Fulfilled v)
  /\ entries (pendingMessages
                (onMessage {| responseId := Some id; data := v; listenerId := listener;
                              eventType := event |} s1)) !! id = None
  /\ snd (run (k (Fulfilled v)) s') = Done v
  /\ pendingMessages (fst (run (k (Fulfilled v)) s')) = pendingMessages s'.
Proof.
  intros H Hvalue. flat s. flat s'.
  explore; try explore; try explore; try explore; try explore; try explore;
    try explore.
  all: cbn.
  all: match goal with
       | Hv : forall e, ?v' <> JErr e |- context [onResponse ?i ?v' ?s1] =>
           destruct (onResponse_value i v' s1 Hv) as [Hout Hgone];
           [eexists; cbn; apply lookup_insert_eq|]
       end.
  all: repeat split; assumption.
Qed.

Lemma sendRequest_delivers_response_witness :
  answers (onMessage {| responseId := Some 1%N; data := JStr "pong";
                        listenerId := None; eventType := None |} requested)
    (ResponseAndSend 1) (Fulfilled (JStr "pong"))
  /\ entries (pendingMessages
                (onMessage {| responseId := Some 1%N; data := JStr "pong";
                              listenerId := None; eventType := None |} requested))
       !! 1%N = None
  /\ snd (run (requestContinuation (Fulfilled (JStr "pong"))) requested)
     = Done (JStr "pong")
  /\ pendingMessages (fst (run (requestContinuation (Fulfilled (JStr "pong"))) requested))
     = pendingMessages requested.
Proof.
  apply (sendRequest_delivers_response eq connecting requested requested ping None []
           1%N requestContinuation (JStr "pong") None None).
  - stop.
  - discriminate.
Defined.

Lemma callingHook_true (s : Conn) (o : option ActionRef) :
  callingHook s o = true ->
  exists r, o = Some r /\ is_Some (heap s !! r).
Proof.
  unfold callingHook, truthy, deref. destruct o as [r|]; [|discriminate].
  destruct (heap s !! r) eqn:Ha; [|discriminate]. intros _. exists r. split; eauto.
Qed.

Lemma taggedHookRequest_heap (s : Conn) (r : ActionRef) :
  taggedHookRequest s (Some r) = heap s !! r ≫= hookMessageId.
Proof. unfold taggedHookRequest, deref. by destruct (heap s !! r). Qed.

Lemma tag_first (v : option MsgId) (c d : ActionRef) (h : list IConnectAction) :
  is_Some (h !! c) ->
  alter (set_hookMessageId v) d (alter (set_hookMessageId v) c h) !! c ≫= hookMessageId = v.
Proof.
  intros [a Ha]. destruct (decide (d = c)) as [->|Hne].
  - by rewrite !list_lookup_alter_eq, Ha.
  - by rewrite list_lookup_alter_ne, list_lookup_alter_eq, Ha.
Qed.

Lemma tag_second (v : option MsgId) (c d : ActionRef) (h : list IConnectAction) :
  is_Some (h !! d) ->
  alter (set_hookMessageId v) d (alter (set_hookMessageId v) c h) !! d ≫= hookMessageId = v.
Proof.
  intros [a Ha]. rewrite list_lookup_alter_eq.
  destruct (decide (c = d)) as [->|Hne].
  - by rewrite list_lookup_alter_eq, Ha.
  - by rewrite list_lookup_alter_ne, Ha.
Qed.

Lemma tag_one (v : option MsgId) (c : ActionRef) (h : list IConnectAction) :
  is_Some (h !! c) ->
  alter (set_hookMessageId v) c h !! c ≫= hookMessageId = v.
Proof. intros [a Ha]. by rewrite list_lookup_alter_eq, Ha. Qed.

Lemma untag_first (c d : ActionRef) (h : list IConnectAction) :
  alter (set_hookMessageId None) d (alter (set_hookMessageId None) c h) !! c
    ≫= hookMessageId = None.
Proof.
  destruct (decide (d = c)) as [->|Hne].
  - rewrite !list_lookup_alter_eq. by destruct (h !! c).
  - rewrite list_lookup_alter_ne, list_lookup_alter_eq by done. by destruct (h !! c).
Qed.

Lemma untag_one (c : ActionRef) (h : list IConnectAction) :
  alter (set_hookMessageId None) c h !! c ≫= hookMessageId = None.
Proof. rewrite list_lookup_alter_eq. by destruct (h !! c). Qed.

(** A request that does not connect first is registered under the next
    id and handed to the transport at once.  It bypasses the connection
    check exactly when it is sent from within a hook, and then the action
    whose hook is running is tagged with the id of the request; the tag is
    taken off again when the request has ended, however it ended.  Sent
    outside of a hook the request changes no action. *)
Theorem sendRequest_tags_hook_request (s : Conn) (payload : RequestPayload)
    (timeout : option Z) :
  shouldAutoConnect s = false ->
  exists s' k,
    run (sendRequest payload timeout) s
    = (s', Waiting (ResponseAndSend (N.succ (lastId (pendingMessages s)))) k)
    /\ entries (pendingMessages s') !! N.succ (lastId (pendingMessages s))
       = Some {| createdAt := clock s; entryTimeoutMs := timeout;
                 bypassesConnectionCheck :=
                   callingHook s (connectAction s)
                   || callingHook s (disconnectAction s) |}
    /\ transportCalls s'
       = transportCalls s
         ++ [CallSend {| envPayload := payload;
                         messageId := N.succ (lastId (pendingMessages s));
                         sendTime := clock s |}]
    /\ (callingHook s (connectAction s) = true ->
        taggedHookRequest s' (connectAction s)
        = Some (N.succ (lastId (pendingMessages s))))
    /\ (callingHook s (disconnectAction s) = true ->
        taggedHookRequest s' (disconnectAction s)
        = Some (N.succ (lastId (pendingMessages s))))
    /\ (callingHook s (connectAction s) = false ->
        callingHook s (disconnectAction s) = false -> heap s' = heap s)
    /\ (forall r s'',
          (callingHook s (connectAction s) = true ->
           taggedHookRequest (fst (run (k r) s'')) (connectAction s) = None)
          /\ (callingHook s (disconnectAction s) = true ->
              taggedHookRequest (fst (run (k r) s'')) (disconnectAction s) = None)).
Proof.
  intros Hauto.
  destruct (callingHook s (connectAction s)) eqn:Hconnect;
    destruct (callingHook s (disconnectAction s)) eqn:Hdisconnect;
    try (destruct (callingHook_true _ _ Hconnect) as (c & Hc & Hcalloc));
    try (destruct (callingHook_true _ _ Hdisconnect) as (d & Hd & Hdalloc));
    flat s; cbn in *; subst; unfold activeHook; rewrite ?Hauto, ?Hconnect, ?Hdisconnect;
    cbn; eexists; eexists; (split; [reflexivity|]); cbn;
    (split; [apply lookup_insert_eq|]); (split; [reflexivity|]);
    rewrite ?taggedHookRequest_heap; cbn.
  - split; [intros _; by apply tag_first|].
    split; [intros _; by apply tag_second|].
    split; [discriminate|].
    intros r s''. flat s''. rewrite !taggedHookRequest_heap.
    destruct r as [v|e]; cbn;
      try match goal with |- context [if ?b then _ else _] => destruct b end; cbn;
      (split; intros _; [apply untag_first|]);
      rewrite list_lookup_alter_eq;
      match goal with |- context [alter _ c ?h !! d] => by destruct (alter _ c h !! d) end.
  - split; [intros _; by apply tag_one|].
    split; [discriminate|]. split; [discriminate|].
    intros r s''. flat s''. rewrite ?taggedHookRequest_heap.
    destruct r as [v|e]; cbn;
      try match goal with |- context [if ?b then _ else _] => destruct b end; cbn;
      (split; [intros _; apply untag_one | discriminate]).
  - split; [discriminate|].
    split; [intros _; by apply tag_one|]. split; [discriminate|].
    intros r s''. flat s''. rewrite ?taggedHookRequest_heap.
    destruct r as [v|e]; cbn;
      try match goal with |- context [if ?b then _ else _] => destruct b end; cbn;
      (split; [discriminate | intros _; apply untag_one]).
  - split; [discriminate|]. split; [discriminate|]. split; [reflexivity|].
    intros r s''. split; discriminate.
Qed.

Lemma sendRequest_tags_hook_request_witness :
  exists s' k,
    run (sendRequest ping None) inAfterConnectHook = (s', Waiting (ResponseAndSend 1) k)
    /\ bypassesConnectionCheck <$> entries (pendingMessages s') !! 1%N = Some true
    /\ taggedHookRequest s' (Some 0%nat) = Some 1%N
    /\ forall r s'', taggedHookRequest (fst (run (k r) s'')) (Some 0%nat) = None.
Proof.
  destruct (sendRequest_tags_hook_request inAfterConnectHook ping None eq_refl)
    as (s' & k & Hrun & Hentry & _ & Htag & _ & _ & Huntag).
  change (N.succ (lastId (pendingMessages inAfterConnectHook))) with 1%N in *.
  change (connectAction inAfterConnectHook) with (Some 0%nat) in *.
  exists s', k. split; [exact Hrun|].
  split; [by rewrite Hentry|].
  split; [exact (Htag eq_refl)|].
  intros r s''. exact (proj1 (Huntag r s'') eq_refl).
Defined.

Lemma shouldAutoConnect_idle (s : Conn) :
  shouldAutoConnect s = true -> connectAction s = None.
Proof.
  unfold shouldAutoConnect. destruct (connectAction s); [|done].
  by rewrite orb_true_r.
Qed.

(** A request on a controller that should connect automatically first
    starts a connect of its own: with the timeout of the request, marked
    automatic, and without touching the auto-reconnect setting; nothing is
    registered or sent before that connect has ended. *)
Theorem sendRequest_auto_connects (s : Conn) (payload : RequestPayload)
    (timeout : option Z) :
  shouldAutoConnect s = true ->
  callingHook s (disconnectAction s) = false ->
  exists s' k,
    run (sendRequest payload timeout) s
    = (s', Waiting (if hasConnect (transport s)
                    then TransportConnect timeout else Tick) k)
    /\ connectAction s' = Some (length (heap s))
    /\ heap s' = heap s ++ [{| isCallingHook := false; hookMessageId := None;
                               startTime := clock s; isAutomatic := true;
                               resolvable := RPending; error := None |}]
    /\ disconnectAction s' = None
    /\ autoReconnect s' = autoReconnect s
    /\ pendingMessages s' = pendingMessages s
    /\ transportCalls s'
       = transportCalls s
         ++ (if hasConnect (transport s) then [CallConnect timeout] else []).
Proof.
  intros Hauto Hgate. pose proof (shouldAutoConnect_idle s Hauto) as Hidle.
  destruct (hasConnect (transport s)) eqn:Htransport;
    flat s; cbn in Hgate, Hidle, Htransport; subst; cbn;
    rewrite Hauto; cbn; rewrite Hgate; cbn;
    eexists; eexists; (split; [reflexivity|]); cbn;
    rewrite ?app_nil_r; repeat split.
Qed.

Lemma sendRequest_auto_connects_witness :
  exists s' k,
    run (sendRequest ping (Some 30000)) fresh
    = (s', Waiting (TransportConnect (Some 30000)) k)
    /\ automatic s' (connectAction s') = true
    /\ transportCalls s' = [CallConnect (Some 30000)].
Proof.
  destruct (sendRequest_auto_connects fresh ping (Some 30000) eq_refl eq_refl)
    as (s' & k & Hrun & Hconnect & Hheap & _ & _ & _ & Hcalls).
  exists s', k. split; [exact Hrun|]. split; [|exact Hcalls].
  unfold automatic, truthy, deref. by rewrite Hconnect, Hheap.
Defined.

(** ** More on connect *)

(** In every execution of a [connect()] that starts an attempt and in
    which nothing that is awaited fails, the call does not fail; once it is
    at its [return] the outcome of its action is resolved and [connected]
    is the last event emitted; it has returned after four answers at the
    latest. *)
Theorem connect_success_resolves (s s2 : Conn) (options : ConnectOptions)
    (trace : list (Awaitable * Settled)) (out : Susp unit) :
  callingHook s (disconnectAction s) = false ->
  connectAction s = None ->
  Exec (leavesOutcome (length (heap s))) (connect options) s trace s2 out ->
  (forall w e, ~ In (w, RejectedWith e) trace) ->
  (forall e, out <> Failed e)
  /\ (forall k, out = Waiting (ResolvablePromise (length (heap s))) k ->
        resolvableAt s2 (length (heap s)) = Some RResolved
        /\ exists l, emitted s2 = l ++ [EmitConnected])
  /\ (out = Done tt -> resolvableAt s2 (length (heap s)) = Some RResolved)
  /\ ((4 <= length trace)%nat -> out = Done tt).
Proof.
  intros Hgate Hnone H Hfine. flat s. cbn in Hgate, Hnone, H |- *. subst.
  explore; try explore; try explore; try explore; try explore; try explore.
  all: try (exfalso; eapply Hfine; cbn; eauto 10; fail).
  all: split; [intros e' Heq; discriminate Heq|].
  all: split;
    [intros k' Heq;
     first [discriminate Heq | split; [solve_resolvable | cbn; eauto]]|].
  all: split; [intros Heq; first [discriminate Heq | solve_resolvable]|].
  all: cbn [length]; intros Hlen; first [lia | reflexivity].
Qed.

(** An execution along given answers, without interference, where the
    answers of settled promises are computed. *)
Ltac resume_settled :=
  eapply Exec_resume;
  [ vm_compute; reflexivity
  |
  | simpl; first [exact I | reflexivity | idtac]
  | ].

Lemma connect_succeeding_execution :
  Exec (leavesOutcome 0) (connect noOptions) fresh connectedTrace
    (fst connected) (snd connected).
Proof.
  unfold connectedTrace.
  resume_settled; [apply leavesOutcome_refl|].
  resume_settled; [apply leavesOutcome_refl|].
  resume_settled; [apply leavesOutcome_refl|].
  resume_settled; [apply leavesOutcome_refl | vm_compute; reflexivity |].
  stop.
Qed.

Lemma connect_success_resolves_witness :
  snd connected = Done tt /\ resolvableAt (fst connected) 0 = Some RResolved.
Proof.
  destruct (connect_success_resolves fresh (fst connected) noOptions connectedTrace
              (snd connected) eq_refl eq_refl connect_succeeding_execution)
    as (_ & _ & Hdone & Hended).
  - intros w e Hin. cbn in Hin.
    repeat match goal with
           | H : _ \/ _ |- _ => destruct H
           | H : False |- _ => destruct H
           end; discriminate.
  - assert (snd connected = Done tt) as Hout by (apply Hended; cbn; lia).
    split; [exact Hout | exact (Hdone Hout)].
Defined.

(** A [connect()] that starts an attempt re-arms the teardown once the
    transport has connected: from then on the next teardown runs, and
    emits [disconnected]; a failed connect of the transport does not
    re-arm it, and clears the connect action. *)
Theorem connect_rearms_teardown (s : Conn) (options : ConnectOptions) :
  callingHook s (disconnectAction s) = false ->
  connectAction s = None ->
  hasConnect (transport s) = true ->
  exists s1 k,
    run (connect options) s = (s1, Waiting (TransportConnect (timeoutMs options)) k)
    /\ (forall s1' v,
          didCallConnectionTerminated (fst (run (k (Fulfilled v)) s1')) = false
          /\ emitted (fst (run onConnectionTerminated (fst (run (k (Fulfilled v)) s1'))))
             = emitted s1' ++ [EmitDisconnected])
    /\ (forall s1' e,
          didCallConnectionTerminated (fst (run (k (RejectedWith e)) s1'))
          = didCallConnectionTerminated s1'
          /\ connectAction (fst (run (k (RejectedWith e)) s1')) = None).
Proof.
  intros Hgate Hnone Htransport.
  flat s. cbn in Hgate, Hnone, Htransport. subst. cbn. rewrite Hgate.
  destruct (shouldAutoReconnect options); cbn;
    (eexists; eexists; split; [reflexivity|]);
    (split; intros s1' r; flat s1'; cbn; [|split; reflexivity]);
    match goal with
    | |- context [run ?p ?st] => destruct (run p st) as [s2 out] eqn:Hrun
    end;
    split_run Hrun; inversion Hrun; subst; cbn;
    repeat match goal with |- context [if ?b then _ else _] => destruct b; cbn end;
    split; reflexivity.
Qed.

Lemma connect_rearms_teardown_witness :
  exists s1 k,
    run (connect noOptions) (fst (run onConnectionTerminated connecting))
    = (s1, Waiting (TransportConnect None) k)
    /\ didCallConnectionTerminated s1 = true
    /\ didCallConnectionTerminated (fst (run (k (Fulfilled JUndefined)) s1)) = false.
Proof.
  destruct (connect_rearms_teardown (fst (run onConnectionTerminated connecting))
              noOptions eq_refl eq_refl eq_refl)
    as (s1 & k & Hrun & Hrearm & _).
  exists s1, k. split; [exact Hrun|]. split; [|apply Hrearm].
  vm_compute in Hrun. by injection Hrun as <- _.
Defined.

(** ** Calls that run alone *)

(** The first step of an execution without interference, in all its
    cases; what is known of the outcomes of the actions is used at once. *)
Ltac split_run_alone H :=
  repeat (cbn in H; repeat (progress autorewrite with conn in H; cbn in H);
    match type of H with
    | context [match ?x with _ => _ end] =>
        match goal with E : x = _ |- _ => rewrite E in H end
    | context [if ?b then _ else _] => destruct b eqn:?
    | context [match ?x with _ => _ end] => destruct x eqn:?
    | run _ _ = _ => progress unfold closeTransport in H
    end).

Ltac explore_alone :=
  match goal with
  | H : Exec eq _ _ _ _ _ |- _ =>
      let Hrun := fresh "Hrun" in
      let Hrely := fresh "Hrely" in
      let Hans := fresh "Hans" in
      let Hrest := fresh "Hrest" in
      inversion H as [? ? ? ? Hrun | ? ? ? ? ? ? ? ? ? ? Hrun Hrely Hans Hrest];
      subst; clear H;
      split_run_alone Hrun; try discriminate Hrun;
      inversion Hrun; subst; clear Hrun;
      try (cbn in Hans; repeat (progress autorewrite with conn in Hans; cbn in Hans);
           try contradiction; simplify_eq)
  end.

(** A [connect()] that starts an attempt, runs without interference and
    returns has called the transport once, has emitted [connected] and
    nothing else, and leaves its action resolved and still in the
    [connectAction] field, with [isCallingHook] cleared: a [connect()]
    called after it joins that action. *)
Theorem connect_completes (s s2 : Conn) (options : ConnectOptions)
    (trace : list (Awaitable * Settled)) :
  callingHook s (disconnectAction s) = false ->
  connectAction s = None ->
  Exec eq (connect options) s trace s2 (Done tt) ->
  connectAction s2 = Some (length (heap s))
  /\ resolvableAt s2 (length (heap s)) = Some RResolved
  /\ callingHook s2 (Some (length (heap s))) = false
  /\ disconnectAction s2 = None
  /\ didCallConnectionTerminated s2 = false
  /\ autoReconnect s2 = default (autoReconnect s) (shouldAutoReconnect options)
  /\ emitted s2 = emitted s ++ [EmitConnected]
  /\ transportCalls s2
     = transportCalls s
       ++ (if hasConnect (transport s) then [CallConnect (timeoutMs options)] else [])
  /\ pendingMessages s2 = pendingMessages s
  /\ forall options', joins (connect options') s2 s2 (length (heap s)).
Proof.
  intros Hgate Hnone H. flat s. cbn in Hgate, Hnone, H |- *. subst.
  explore_alone; try explore_alone; try explore_alone; try explore_alone;
    try explore_alone; try explore_alone.
  all: cbn; rewrite ?app_nil_r.
  all: split; [reflexivity|].
  all: split; [solve_resolvable|].
  all: split; [unfold callingHook, truthy, deref; cbn;
               by rewrite !list_lookup_alter_eq, list_lookup_middle|].
  all: repeat (split; [reflexivity|]).
  all: intros options'; unfold joins, connect; cbn.
  all: apply returnPromise_follows.
Qed.

Lemma connect_running_alone :
  Exec eq (connect noOptions) fresh connectedTrace (fst connected) (Done tt).
Proof.
  unfold connectedTrace.
  resume_settled; [reflexivity|].
  resume_settled; [reflexivity|].
  resume_settled; [reflexivity|].
  resume_settled; [reflexivity | vm_compute; reflexivity |].
  stop.
Qed.

Lemma connect_completes_witness :
  connectAction (fst connected) = Some 0%nat
  /\ emitted (fst connected) = [EmitConnected]
  /\ transportCalls (fst connected) = [CallConnect None]
  /\ joins (connect noOptions) (fst connected) (fst connected) 0.
Proof.
  destruct (connect_completes fresh (fst connected) noOptions connectedTrace
              eq_refl eq_refl connect_running_alone)
    as (Hlive & _ & _ & _ & _ & _ & Hemitted & Hcalls & _ & Hjoin).
  split; [exact Hlive|]. split; [exact Hemitted|].
  split; [exact Hcalls | exact (Hjoin noOptions)].
Defined.

(** ** More on disconnect *)

(** A [disconnect()] that starts a disconnect action, runs without
    interference and returns leaves the controller torn down: no connect
    action, auto-reconnect off, an empty registry, its own action resolved
    with [isCallingHook] cleared; the transport's [disconnect] was called
    once if it has one; and if the teardown had not run before, it has run
    now: [disconnected] is emitted once and the time is recorded;
    otherwise neither happens again. *)
Theorem disconnect_completes (s s2 : Conn) (fatalError : option Error)
    (trace : list (Awaitable * Settled)) :
  disconnectAction s = None ->
  Exec eq (disconnect fatalError) s trace s2 (Done tt) ->
  connectAction s2 = None
  /\ disconnectAction s2 = Some (length (heap s))
  /\ resolvableAt s2 (length (heap s)) = Some RResolved
  /\ callingHook s2 (Some (length (heap s))) = false
  /\ autoReconnect s2 = false
  /\ entries (pendingMessages s2) = ∅
  /\ didCallConnectionTerminated s2 = true
  /\ lastDisconnectDate s2
     = (if didCallConnectionTerminated s then lastDisconnectDate s else Some (clock s))
  /\ emitted s2
     = emitted s ++ (if didCallConnectionTerminated s then [] else [EmitDisconnected])
  /\ transportCalls s2
     = transportCalls s
       ++ match disconnectFn (transport s) with
          | Some _ => [CallDisconnect]
          | None => []
          end
  /\ In (LogStats "ConnectionToCore.Disconnected") (logged s2).
Proof.
  intros Hnone H. flat s. cbn in Hnone, H |- *. subst.
  explore_alone; try explore_alone; try explore_alone; try explore_alone;
    try explore_alone; try explore_alone; try explore_alone.
  all: cbn; rewrite ?app_nil_r.
  all: split; [reflexivity|].
  all: split; [reflexivity|].
  all: split; [solve_resolvable|].
  all: split; [unfold callingHook, truthy, deref; cbn;
               by rewrite !list_lookup_alter_eq, list_lookup_middle|].
  all: repeat (split; [reflexivity|]).
  all: solve_logged.
Qed.

Lemma disconnect_running_alone :
  Exec eq (disconnect None) (fst connected) disconnectedTrace (fst disconnected) (Done tt).
Proof.
  unfold disconnectedTrace.
  resume_settled; [reflexivity|].
  resume_settled; [reflexivity|].
  resume_settled; [reflexivity|].
  resume_settled; [reflexivity|].
  resume_settled; [reflexivity | vm_compute; reflexivity |].
  stop.
Qed.

Lemma disconnect_completes_witness :
  connectAction (fst disconnected) = None
  /\ autoReconnect (fst disconnected) = false
  /\ emitted (fst disconnected) = [EmitConnected; EmitDisconnected]
  /\ transportCalls (fst disconnected) = [CallConnect None; CallDisconnect].
Proof.
  destruct (disconnect_completes (fst connected) (fst disconnected) None
              disconnectedTrace eq_refl disconnect_running_alone)
    as (Hlive & _ & _ & _ & Hauto & _ & _ & _ & Hemitted & Hcalls & _).
  split; [exact Hlive|]. split; [exact Hauto|].
  split; [exact Hemitted | exact Hcalls].
Defined.

(** ** A request whose connect fails *)

(** The cases of [H : In x trace] for a trace that is written out. *)
Ltac trace_cases H :=
  cbn in H;
  repeat match goal with
         | H' : _ \/ _ |- _ => destruct H'
         | H' : False |- _ => destruct H'
         end;
  try discriminate; simplify_eq.

(** When a request starts a connect of its own and the transport's connect
    or the after-connect hook fails, the request fails with that error:
    three answers after the call when the transport's connect failed, five
    when the hook failed, and until then it only waits for a tick or for
    the outcome of the connect action.  The request is never registered
    or sent, and the call never returns a value. *)
Theorem sendRequest_fails_with_connect (s s2 : Conn) (payload : RequestPayload)
    (timeout : option Z) (trace : list (Awaitable * Settled)) (out : Susp JsValue)
    (err : Error) :
  shouldAutoConnect s = true ->
  callingHook s (disconnectAction s) = false ->
  Exec (leavesOutcome (length (heap s))) (sendRequest payload timeout) s trace s2 out ->
  ((exists t, In (TransportConnect t, RejectedWith err) trace)
   \/ (exists c, In (AfterConnectFn c, RejectedWith err) trace)) ->
  (forall id k, out <> Waiting (ResponseAndSend id) k)
  /\ (forall id r, ~ In (ResponseAndSend id, r) trace)
  /\ (forall v, out <> Done v)
  /\ (forall e, out = Failed e -> e = err)
  /\ ((exists t, In (TransportConnect t, RejectedWith err) trace) ->
      (length trace <= 3)%nat /\ ((3 <= length trace)%nat -> out = Failed err))
  /\ ((exists c, In (AfterConnectFn c, RejectedWith err) trace) ->
      (length trace <= 5)%nat /\ ((5 <= length trace)%nat -> out = Failed err))
  /\ (forall w k, out = Waiting w k ->
        w = Tick \/ w = ResolvablePromise (length (heap s))).
Proof.
  intros Hauto Hgate H Hfail.
  pose proof (shouldAutoConnect_idle s Hauto) as Hidle.
  flat s. cbn in Hgate, Hidle, H |- *. subst.
  explore; try explore; try explore; try explore; try explore; try explore;
    try explore; try explore.
  all: destruct Hfail as [[? Hin]|[? Hin]]; trace_cases Hin.
  all: split; [intros id' k' Heq; discriminate Heq|].
  all: split; [intros id' r' Hin'; trace_cases Hin'|].
  all: split; [intros v' Heq; discriminate Heq|].
  all: split; [intros e' Heq; try discriminate Heq; by simplify_eq|].
  all: split;
    [intros [t' Hin']; trace_cases Hin'; cbn [length];
     (split; [lia|]); intros Hlen; first [lia | reflexivity]|].
  all: split;
    [intros [c' Hin']; trace_cases Hin'; cbn [length];
     (split; [lia|]); intros Hlen; first [lia | reflexivity]|].
  all: intros w' k' Heq; try discriminate Heq; inversion Heq; subst; auto.
Qed.

Lemma request_failing_execution :
  Exec (leavesOutcome 0) (sendRequest ping None) fresh requestFailedTrace
    (fst requestFailed) (snd requestFailed).
Proof.
  unfold requestFailedTrace.
  resume_settled; [apply leavesOutcome_refl|].
  resume_settled; [apply leavesOutcome_refl | vm_compute; reflexivity |].
  resume_settled; [apply leavesOutcome_refl|].
  stop.
Qed.

Lemma sendRequest_fails_with_connect_witness :
  snd requestFailed = Failed boom
  /\ (forall id r, ~ In (ResponseAndSend id, r) requestFailedTrace).
Proof.
  destruct (sendRequest_fails_with_connect fresh (fst requestFailed) ping None
              requestFailedTrace (snd requestFailed) boom eq_refl eq_refl
              request_failing_execution)
    as (_ & Hunsent & _ & _ & Hfails & _).
  - left. exists None. left. reflexivity.
  - split; [|exact Hunsent].
    apply Hfails; [|cbn; lia]. exists None. left. reflexivity.
Defined.

(** ** The frame ids of the websocket session *)

Section WebsocketSessionFacts.
Import WebsocketSession.

Lemma eqb_nonempty (x : string) : x <> "" -> String.eqb x "" = false.
Proof. intros Hx. by apply String.eqb_neq. Qed.

(** A frame registered for a client before its message arrives: the
    message is emitted at once, with the registered frame id. *)
Theorem register_then_message (s : t) (url : Url) (clientId frameId name payload : string) :
  searchParams_get "secret" (searchParams url) = Some (secret s) ->
  searchParams_get "clientId" (searchParams url) = Some clientId ->
  clientId <> "" ->
  frameId <> "" ->
  exists s1,
    registerWebsocketFrameId (Some url) frameId s = Some s1
    /\ clientIdToTargetId s1 !! Some clientId = Some (FrameId frameId)
    /\ handleMessage (Some clientId) (Some (name, payload)) s1
       = (emit {| id := frameId; name := name; payload := payload |} s1, Received).
Proof.
  intros Hsecret Hclient Hnonempty Hframe.
  unfold registerWebsocketFrameId. rewrite Hsecret, Hclient.
  rewrite bool_decide_eq_true_2 by reflexivity. simpl.
  rewrite (eqb_nonempty clientId Hnonempty).
  eexists. split; [reflexivity|].
  assert (forall s', clientIdToTargetId
            (set_clientIdToTargetId
               (<[Some clientId := FrameId frameId]> (clientIdToTargetId s')) s')
            !! Some clientId = Some (FrameId frameId)) as Hlookup
    by (intros s'; apply lookup_insert_eq).
  split; [apply Hlookup|].
  unfold handleMessage. rewrite Hlookup.
  by rewrite (eqb_nonempty frameId Hframe).
Qed.

Lemma register_then_message_witness :
  exists s1,
    registerWebsocketFrameId
      (Some {| hostname := "websocket.localhost"; urlPort := "8080";
               searchParams := [("secret", "0.42"); ("clientId", "0.7")] |})
      "frame-1" (new "0.42") = Some s1
    /\ clientIdToTargetId s1 !! Some "0.7" = Some (FrameId "frame-1")
    /\ handleMessage (Some "0.7") (Some ("ping", "{}")) s1
       = (emit {| id := "frame-1"; name := "ping"; payload := "{}" |} s1, Received).
Proof.
  apply (register_then_message (new "0.42")
           {| hostname := "websocket.localhost"; urlPort := "8080";
              searchParams := [("secret", "0.42"); ("clientId", "0.7")] |}
           "0.7" "frame-1" "ping" "{}"); done.
Defined.

(** A message that arrives before the frame of its client is registered:
    the call makes a resolvable, puts it in the map and waits for it;
    messages of the same client that follow wait for the same resolvable
    and change nothing; the registration resolves it with the frame id and
    replaces it in the map, and then the waiting calls emit their events
    with that frame id. *)
Theorem message_then_register (s : t) (url : Url) (clientId frameId name payload : string) :
  searchParams_get "secret" (searchParams url) = Some (secret s) ->
  searchParams_get "clientId" (searchParams url) = Some clientId ->
  clientId <> "" ->
  clientIdToTargetId s !! Some clientId = None ->
  exists s1 s2,
    handleMessage (Some clientId) (Some (name, payload)) s
    = (s1, AwaitsFrameId (length (resolvables s)) name payload)
    /\ handleMessage_resume (length (resolvables s)) name payload s1 = None
    /\ (forall name' payload',
          handleMessage (Some clientId) (Some (name', payload')) s1
          = (s1, AwaitsFrameId (length (resolvables s)) name' payload'))
    /\ registerWebsocketFrameId (Some url) frameId s1 = Some s2
    /\ clientIdToTargetId s2 !! Some clientId = Some (FrameId frameId)
    /\ (forall name' payload',
          handleMessage_resume (length (resolvables s)) name' payload' s2
          = Some (emit {| id := frameId; name := name'; payload := payload' |} s2)).
Proof.
  intros Hsecret Hclient Hnonempty Hunknown.
  unfold handleMessage at 1. rewrite Hunknown.
  eexists. eexists. split; [reflexivity|].
  split.
  { unfold handleMessage_resume. simpl. by rewrite list_lookup_middle. }
  split.
  { intros name' payload'. unfold handleMessage. simpl. by rewrite lookup_insert_eq. }
  unfold registerWebsocketFrameId. rewrite Hclient. simpl. rewrite Hsecret.
  rewrite bool_decide_eq_true_2 by reflexivity. simpl.
  rewrite (eqb_nonempty clientId Hnonempty), lookup_insert_eq.
  split; [reflexivity|].
  split; [apply lookup_insert_eq|].
  intros name' payload'. unfold handleMessage_resume. simpl.
  by rewrite list_lookup_alter_eq, list_lookup_middle.
Qed.

Lemma message_then_register_witness :
  exists s1 s2,
    handleMessage (Some "0.7") (Some ("ping", "{}")) (new "0.42")
    = (s1, AwaitsFrameId 0 "ping" "{}")
    /\ registerWebsocketFrameId
         (Some {| hostname := "websocket.localhost"; urlPort := "8080";
                  searchParams := [("secret", "0.42"); ("clientId", "0.7")] |})
         "frame-1" s1 = Some s2
    /\ handleMessage_resume 0 "ping" "{}" s2
       = Some (emit {| id := "frame-1"; name := "ping"; payload := "{}" |} s2).
Proof.
  destruct (message_then_register (new "0.42")
              {| hostname := "websocket.localhost"; urlPort := "8080";
                 searchParams := [("secret", "0.42"); ("clientId", "0.7")] |}
              "0.7" "frame-1" "ping" "{}")
    as (s1 & s2 & Hmessage & _ & _ & Hregister & _ & Hemit); try done.
  exists s1, s2. split; [exact Hmessage|]. split; [exact Hregister|]. apply Hemit.
Defined.

(** An url is taken for one of the session only when the server listens
    and host, port and secret are the session's; so before the server
    listens no url is, and an url that is passes the secret check of
    [registerWebsocketFrameId]: with a client id, its frame is
    registered. *)
Theorem isWebsocketUrl_registers (s : t) (url : option Url) :
  (port s = None -> isWebsocketUrl url s = false)
  /\ (isWebsocketUrl url s = true ->
      exists parsed listening,
        url = Some parsed /\ port s = Some listening
        /\ hostname parsed = host s /\ urlPort parsed = listening
        /\ searchParams_get "secret" (searchParams parsed) = Some (secret s)
        /\ forall clientId frameId,
             searchParams_get "clientId" (searchParams parsed) = Some clientId ->
             clientId <> "" ->
             exists s', registerWebsocketFrameId url frameId s = Some s'
                        /\ clientIdToTargetId s' !! Some clientId
                           = Some (FrameId frameId)).
Proof.
  unfold isWebsocketUrl. split.
  - intros ->. destruct url as [parsed|]; [|done].
    by destruct (String.eqb _ _).
  - destruct url as [parsed|]; [|done].
    destruct (String.eqb (hostname parsed) (host s)) eqn:Hhost; [|done].
    destruct (port s) as [listening|]; [|done].
    intros [Hport Hsecret%bool_decide_eq_true]%andb_true_iff.
    apply String.eqb_eq in Hhost, Hport.
    exists parsed, listening. repeat (split; [done|]).
    intros clientId frameId Hclient Hnonempty.
    unfold registerWebsocketFrameId. rewrite Hsecret, Hclient.
    rewrite bool_decide_eq_true_2 by reflexivity. simpl.
    rewrite (eqb_nonempty clientId Hnonempty).
    eexists. split; [reflexivity|]. apply lookup_insert_eq.
Qed.

(** ** Keeping a websocket alive *)

Lemma terminated_stays (events : list SocketEvent) (s : t) (c : Connection) :
  terminated c = true -> intervalRuns c = false ->
  terminated (snd (socketEvents events (s, c))) = true
  /\ fst (socketEvents events (s, c)) = s.
Proof.
  revert c. induction events as [|e events IH]; intros c Hterminated Hcleared.
  - by split.
  - destruct e; simpl.
    + apply IH; done.
    + rewrite Hcleared. apply IH; done.
Qed.

Lemma keepalive_from (events : list SocketEvent) (s : t) (c : Connection) :
  intervalRuns c = true -> terminated c = false ->
  terminated (snd (socketEvents events (s, c))) = true
  <-> (isAlive c = false /\ exists post, events = IntervalFired :: post)
      \/ (exists pre post, events = pre ++ IntervalFired :: IntervalFired :: post).
Proof.
  revert s c. induction events as [|e events IH]; intros s c Hruns Hlive.
  - simpl. rewrite Hlive. split; [done|].
    intros [[_ [post Hpost]]|(pre & post & Hsplit)]; [done|].
    by destruct pre.
  - destruct e; simpl.
    + rewrite IH by done. simpl. split.
      * intros [[Hdead _]|(pre & post & ->)]; [done|].
        right. by exists (Pong :: pre), post.
      * intros [[_ [post Hpost]]|(pre & post & Hsplit)]; [done|].
        destruct pre as [|e pre]; [done|]. injection Hsplit as _ ->.
        right. by exists pre, post.
    + rewrite Hruns. unfold onInterval. destruct (isAlive c) eqn:Halive.
      * rewrite IH by done. simpl. split.
        -- intros [[_ [post ->]]|(pre & post & ->)].
           ++ right. by exists [], post.
           ++ right. by exists (IntervalFired :: pre), post.
        -- intros [[Hdead _]|(pre & post & Hsplit)]; [done|].
           destruct pre as [|e pre].
           ++ injection Hsplit as ->. left. split; [done|]. by exists post.
           ++ injection Hsplit as _ ->. right. by exists pre, post.
      * split; [|intros _; by apply terminated_stays].
        intros _. left. split; [done|]. by exists events.
Qed.

(** The websocket of a client is terminated exactly when the interval
    fires twice in a row, with no pong of the client in between; then the
    client is taken out of the map of frame ids, and as long as that has
    not happened the map is as it was. *)
Theorem keepalive_terminates_silent_client (s : t) (clientId : option string)
    (events : list SocketEvent) :
  (terminated (snd (socketEvents events (s, handleConnection clientId))) = true
   <-> exists pre post, events = pre ++ IntervalFired :: IntervalFired :: post)
  /\ (terminated (snd (socketEvents events (s, handleConnection clientId))) = true ->
      clientIdToTargetId (fst (socketEvents events (s, handleConnection clientId)))
        !! clientId = None)
  /\ (terminated (snd (socketEvents events (s, handleConnection clientId))) = false ->
      fst (socketEvents events (s, handleConnection clientId)) = s).
Proof.
  split.
  { rewrite keepalive_from by done. simpl. split; [|by right].
    by intros [[? _]|?]. }
  assert (forall c s0,
            intervalRuns c = true -> terminated c = false ->
            connectionClientId c = clientId ->
            (terminated (snd (socketEvents events (s0, c))) = true ->
             clientIdToTargetId (fst (socketEvents events (s0, c))) !! clientId = None)
            /\ (terminated (snd (socketEvents events (s0, c))) = false ->
                fst (socketEvents events (s0, c)) = s0)) as Hrun.
  { induction events as [|e events IH]; intros c s0 Hruns Hlive Hclient.
    - simpl. rewrite Hlive. by split.
    - destruct e; simpl.
      + apply IH; done.
      + rewrite Hruns. unfold onInterval. destruct (isAlive c).
        * apply IH; done.
        * match goal with
          | |- context [socketEvents events (?s1, ?c1)] =>
              destruct (terminated_stays events s1 c1 eq_refl eq_refl) as [-> ->]
          end.
          split; [|done]. intros _. simpl. rewrite Hclient. apply lookup_delete_eq. }
  apply Hrun; done.
Qed.

(** ** The injected script *)

Lemma sendQueued_app (queue sent : list (string * string)) :
  sendQueued queue sent = sent ++ queue.
Proof.
  revert sent. induction queue as [|m queue IH]; intros sent; simpl.
  - by rewrite app_nil_r.
  - by rewrite IH, <- app_assoc.
Qed.

Lemma scriptEvents_order (events : list ScriptEvent) (p : Injected) :
  (isReady p = true -> queuedCallbacks p = []) ->
  sent (scriptEvents events p) ++ queuedCallbacks (scriptEvents events p)
  = sent p ++ queuedCallbacks p ++ callbacks events
  /\ (isReady (scriptEvents events p) = true ->
      queuedCallbacks (scriptEvents events p) = [])
  /\ (isReady (scriptEvents events p) = true <-> isReady p = true \/ In SocketOpen events).
Proof.
  revert p. induction events as [|e events IH]; intros p Hp.
  - simpl. rewrite app_nil_r. split; [done|]. split; [done|]. split; [by left|].
    by intros [?|[]].
  - simpl. destruct e as [message|]; simpl.
    + unfold callback. destruct (isReady p) eqn:Hready; simpl.
      * specialize (Hp eq_refl). rewrite Hp.
        edestruct (IH {| isReady := true; queuedCallbacks := [];
                         sent := sent p ++ [message] |}) as (Horder & Hempty & Hopen);
          [done|].
        simpl in *. rewrite Horder, <- app_assoc.
        split; [reflexivity|]. split; [done|]. rewrite Hopen.
        split; [intros _; by left|]. intros _. by left.
      * edestruct (IH {| isReady := false; queuedCallbacks := queuedCallbacks p ++ [message];
                         sent := sent p |}) as (Horder & Hempty & Hopen);
          [done|].
        simpl in *. rewrite Horder, <- !app_assoc.
        split; [done|]. split; [done|]. rewrite Hopen.
        split; [intros [?|?]; [done|by right; right] | intros [?|[?|?]]; [done|done|by right]].
    + unfold onOpen. rewrite sendQueued_app.
      edestruct (IH {| isReady := true; queuedCallbacks := [];
                       sent := sent p ++ queuedCallbacks p |}) as (Horder & Hempty & Hopen);
        [done|].
      simpl in *. rewrite Horder, <- app_assoc.
      split; [done|]. split; [done|]. rewrite Hopen.
      split; [intros _; right; by left | intros _; by left].
Qed.

(** The injected script loses no message and keeps the order: whatever
    the calls of [callback] and the [open] events of the socket are, the
    messages sent followed by those still queued are the messages of the
    calls, in their order; before the socket opens all are queued and none
    is sent, and once it has opened all are sent and none is queued. *)
Theorem injectedScript_keeps_order (events : list ScriptEvent) :
  sent (scriptEvents events injectedScript)
    ++ queuedCallbacks (scriptEvents events injectedScript) = callbacks events
  /\ (In SocketOpen events ->
      sent (scriptEvents events injectedScript) = callbacks events
      /\ queuedCallbacks (scriptEvents events injectedScript) = [])
  /\ (~ In SocketOpen events ->
      sent (scriptEvents events injectedScript) = []
      /\ queuedCallbacks (scriptEvents events injectedScript) = callbacks events).
Proof.
  destruct (scriptEvents_order events injectedScript) as (Horder & Hempty & Hopen);
    [done|].
  simpl in Horder. split; [exact Horder|]. split.
  - intros Hin. assert (isReady (scriptEvents events injectedScript) = true) as Hready
      by (apply Hopen; by right).
    rewrite (Hempty Hready), app_nil_r in Horder. by rewrite (Hempty Hready).
  - intros Hnever.
    assert (forall p, isReady p = false -> sent p = [] -> ~ In SocketOpen events ->
              sent (scriptEvents events p) = []) as Hunsent.
    { clear. induction events as [|e events IH]; intros p Hready Hsent Hnever; [done|].
      destruct e as [message|]; simpl.
      - apply IH; [| |intros ?; apply Hnever; by right];
          unfold callback; rewrite Hready; done.
      - destruct Hnever. by left. }
    rewrite (Hunsent injectedScript eq_refl eq_refl Hnever) in Horder |- *.
    by split.
Qed.

End WebsocketSessionFacts.
